(** * Device-scope dashboard: duplicate-aware counting and presence overlap

    A shallow embedding of the aggregation code of [streamlit_app.py]:
    [normalize_bool_column], [adjust_count_for_duplicates],
    [count_total_devices], [count_all_5_contexts],
    [count_multi_instance_devices], and the two script fragments that
    build [heatmap_matrix] and [adjusted_counts].

    Modelling conventions.
    - A pandas [Series] is the list of its cells, in index order; a cell is
      a Python object ([cell]).  A [DataFrame] is its number of rows together
      with a finite map from column names to columns.
    - Numbers are exact: an int cell carries an integer and a float cell a
      rational, and sums are taken without wrap-around or rounding.  pandas
      agrees with that as long as the numbers lie on a binary grid and stay
      within the 53 bits of a float ([exact_counts]); the properties that
      say which count is returned, or that one is returned, assume that
      range.  Infinite floats are no cells.
    - A string is a list of characters with code points 0..255.
    - Two pieces of pandas/Python are not defined here but taken as
      parameters of the development: the text [str] gives a float, and the
      number [pd.to_numeric] reads from a string.
    - The functions that assign to [df] are written in a state monad over
      the table; [KeyError] leaves the table as it was when raised. *)

From Stdlib Require Import Ascii String QArith Qround Qminmax Qabs.
From stdpp Require Import gmap strings list fin_maps pretty sorting.

Local Open Scope Z_scope.
Local Open Scope string_scope.

(** ** Python strings: [str.strip] and [str.lower] *)

Module PyStr.

(** [str.isspace] on one character, for code points below 256. *)
Definition isspace (c : ascii) : bool :=
  let n := N_of_ascii c in
  ((9 <=? n) && (n <=? 13) || (28 <=? n) && (n <=? 32)
   || (n =? 133) || (n =? 160))%N.

(** [str.lower] on one character, for code points below 256: the ASCII
    capitals and the Latin-1 capitals (all of 192..222 but the
    multiplication sign 215) move up by 32. *)
Definition lower_char (c : ascii) : ascii :=
  let n := N_of_ascii c in
  if ((65 <=? n) && (n <=? 90)
      || (192 <=? n) && (n <=? 222) && negb (n =? 215))%N
  then ascii_of_N (n + 32) else c.

Fixpoint lstrip (s : string) : string :=
  match s with
  | String c s' => if isspace c then lstrip s' else s
  | EmptyString => EmptyString
  end.

Fixpoint rstrip (s : string) : string :=
  match s with
  | EmptyString => EmptyString
  | String c s' =>
      match rstrip s' with
      | EmptyString => if isspace c then EmptyString else String c EmptyString
      | r => String c r
      end
  end.

Definition strip (s : string) : string := rstrip (lstrip s).

Fixpoint lower (s : string) : string :=
  match s with
  | EmptyString => EmptyString
  | String c s' => String (lower_char c) (lower s')
  end.

End PyStr.

(** ** Cells and series *)

(** The Python objects a cell of the export can hold. *)
Inductive cell : Type :=
| CStr (s : string)     (* str *)
| CInt (z : Z)          (* int *)
| CFloat (q : Q)        (* finite float *)
| CBool (b : bool)      (* bool *)
| CNone                 (* None *)
| CNaN.                 (* float nan, the missing value of read_csv *)

Abbreviation Series := (list cell).

(** Python's [bool(x)]; it is what [astype(bool)] applies to each object. *)
Definition py_bool (c : cell) : bool :=
  match c with
  | CStr s => negb (String.eqb s "")
  | CInt z => negb (z =? 0)%Z
  | CFloat q => negb (Qeq_bool q 0)
  | CBool b => b
  | CNone => false
  | CNaN => true
  end.

(** Python's [int(x)] on a finite number: truncation towards zero.  (On an
    infinite float, which is no number here, [int] raises.) *)
Definition py_int (q : Q) : Z := Z.quot (Qnum q) (Z.pos (Qden q)).

(** [.replace({"true": True, "false": False, "1": True, "0": False})]:
    a cell equal to a key becomes the key's value, any other is kept. *)
Definition replace_bool_literals (c : cell) : cell :=
  match c with
  | CStr s =>
      if String.eqb s "true" then CBool true
      else if String.eqb s "false" then CBool false
      else if String.eqb s "1" then CBool true
      else if String.eqb s "0" then CBool false
      else c
  | _ => c
  end.

Section Normalize.

(** [str(x)] for a finite float [x]. *)
Variable float_repr : Q -> string.

(** [astype(str)] on one cell. *)
Definition astype_str (c : cell) : string :=
  match c with
  | CStr s => s
  | CInt z => pretty z
  | CFloat q => float_repr q
  | CBool true => "True"
  | CBool false => "False"
  | CNone => "None"
  | CNaN => "nan"
  end.

(** The text a cell is looked up by: stringified, stripped, lowercased. *)
Definition presence_key (c : cell) : string :=
  PyStr.lower (PyStr.strip (astype_str c)).

Definition normalize_bool (c : cell) : bool :=
  py_bool (replace_bool_literals (CStr (presence_key c))).

(** [normalize_bool_column(series)]:
    [series.astype(str).str.strip().str.lower().replace({...}).astype(bool)]. *)
Definition normalize_bool_column (series : Series) : Series :=
  map (fun c => CBool (normalize_bool c)) series.

End Normalize.

(** ** Exceptions *)

Inductive error : Type :=
| KeyError (column : string)
| TypeError.

Inductive result (A : Type) : Type :=
| Ok (a : A)
| Raise (e : error).
Arguments Ok {A} a.
Arguments Raise {A} e.

Definition result_bind {A B} (r : result A) (k : A -> result B) : result B :=
  match r with
  | Ok a => k a
  | Raise e => Raise e
  end.

Declare Scope result_scope.
Delimit Scope result_scope with result.
Notation "'let?' x := c 'in' k" := (result_bind c (fun x => k))
  (at level 10, x name, c at level 100, k at level 200) : result_scope.

(** A loop whose body may raise: [for x in xs: acc = body(acc, x)]. *)
Fixpoint for_each {A B} (body : B -> A -> result B) (xs : list A) (acc : B)
  : result B :=
  match xs with
  | [] => Ok acc
  | x :: xs' => result_bind (body acc x) (for_each body xs')
  end.

(** ** Series arithmetic *)

(** A float64 value of an arithmetic result: [None] is NaN. *)
Abbreviation float64 := (option Q).

(** The number a cell stands for in [series - 1].  A [str] does not
    support the subtraction.  Neither does [None], but pandas, when the
    subtraction on a column of objects fails, does it again on the cells
    that are not missing and leaves NaN at the others: a [None] comes out
    as NaN and nothing is raised for it. *)
Definition cell_number (c : cell) : result float64 :=
  match c with
  | CInt z => Ok (Some (inject_Z z))
  | CFloat q => Ok (Some q)
  | CBool b => Ok (Some (inject_Z (Z.b2z b)))
  | CNone | CNaN => Ok None
  | CStr _ => Raise TypeError
  end.

(** [series - 1] *)
Fixpoint series_minus_one (series : Series) : result (list float64) :=
  match series with
  | [] => Ok []
  | c :: rest =>
      (let? x := cell_number c in
       let? xs := series_minus_one rest in
       Ok (((fun q => q - 1)%Q <$> x) :: xs))%result
  end.

(** [.clip(lower=0)] *)
Definition clip_lower_0 (xs : list float64) : list float64 :=
  map (fmap (fun q => Qmax q 0)) xs.

(** [.sum()], which skips NaN: the exact sum, which is the one numpy
    returns in the range of [exact_counts]. *)
Definition nansum (xs : list float64) : Q :=
  foldr (fun x acc => (default 0 x + acc)%Q) 0%Q xs.

(** [(series - 1).clip(lower=0).sum()] *)
Definition extra_instances (series : Series) : result Q :=
  (let? d := series_minus_one series in Ok (nansum (clip_lower_0 d)))%result.

(** [adjust_count_for_duplicates(base_count, series_entra, series_sophos)] *)
Definition adjust_count_for_duplicates
    (base_count : Q) (series_entra series_sophos : Series) : result Z :=
  (let? extra_entra := extra_instances series_entra in
   let? extra_sophos := extra_instances series_sophos in
   Ok (py_int (base_count + extra_entra + extra_sophos)))%result.

(** ** The counts as the specification words them *)

(** The extra instances of integer counts: the sum of [max(c - 1, 0)]. *)
Definition duplicate_extras (counts : list Z) : Z :=
  foldr (fun c acc => Z.max (c - 1) 0 + acc) 0 counts.

(** The extra of one count, fractional or not: nothing up to 1, the excess
    over 1 above it. *)
Definition extra_of_count (c : Q) : Q :=
  if Qle_bool c 1 then 0%Q else (c - 1)%Q.

Definition clipped_extras (counts : list Q) : Q :=
  foldr (fun c acc => (extra_of_count c + acc)%Q) 0%Q counts.

(** ** Tables *)

(** A [DataFrame]: the length of its index and its columns by name. *)
Record DataFrame : Type := mkDataFrame {
  df_len : nat;
  df_cols : gmap string Series
}.

(** Every column has one cell per row. *)
Definition well_formed (df : DataFrame) : Prop :=
  forall name col, df_cols df !! name = Some col -> length col = df_len df.

(** [df[name]], read. *)
Definition df_column (df : DataFrame) (name : string) : result Series :=
  match df_cols df !! name with
  | Some col => Ok col
  | None => Raise (KeyError name)
  end.

(** [df[name] = series] *)
Definition df_assign (name : string) (series : Series) (df : DataFrame)
  : DataFrame :=
  mkDataFrame (df_len df) (<[name := series]> (df_cols df)).

(** Boolean indexing of a column: the cells where the mask is true. *)
Fixpoint select_rows {A} (mask : list bool) (series : list A) : list A :=
  match mask, series with
  | b :: mask', c :: series' =>
      if b then c :: select_rows mask' series' else select_rows mask' series'
  | _, _ => []
  end.

(** [mask.sum()], the number of true entries. *)
Definition mask_count (mask : list bool) : nat := length (filter Is_true mask).

(** [df[mask]] *)
Definition df_filter (mask : list bool) (df : DataFrame) : DataFrame :=
  mkDataFrame (mask_count mask) (select_rows mask <$> df_cols df).

(** Code that reads and assigns columns of the table it is given: the table
    is threaded through, and is returned as it stands when an exception is
    raised. *)
Definition Table (A : Type) : Type := DataFrame -> result A * DataFrame.

Definition table_ret {A} (a : A) : Table A := fun df => (Ok a, df).

Definition table_bind {A B} (c : Table A) (k : A -> Table B) : Table B :=
  fun df =>
    match c df with
    | (Ok a, df') => k a df'
    | (Raise e, df') => (Raise e, df')
    end.

Definition get_column (name : string) : Table Series :=
  fun df => (df_column df name, df).

Definition set_column (name : string) (series : Series) : Table unit :=
  fun df => (Ok tt, df_assign name series df).

Definition get_len : Table nat := fun df => (Ok (df_len df), df).

Definition lift_result {A} (r : result A) : Table A := fun df => (r, df).

Declare Scope table_scope.
Delimit Scope table_scope with table.
Notation "'let!' x := c 'in' k" := (table_bind c (fun x => k))
  (at level 10, x name, c at level 100, k at level 200) : table_scope.
Notation "'do!' c 'in' k" := (table_bind c (fun _ => k))
  (at level 10, c at level 100, k at level 200) : table_scope.

(** [for name in names: df[name] = f(df[name])] *)
Fixpoint update_columns (f : Series -> Series) (names : list string)
  : Table unit :=
  match names with
  | [] => table_ret tt
  | name :: rest =>
      (let! col := get_column name in
       do! set_column name (f col) in
       update_columns f rest)%table
  end.

(** [df[names]]: the listed columns, in order. *)
Fixpoint get_columns (names : list string) : Table (list Series) :=
  match names with
  | [] => table_ret []
  | name :: rest =>
      (let! col := get_column name in
       let! cols := get_columns rest in
       table_ret (col :: cols))%table
  end.

(** [frame.all(axis=1)] over the given columns of a frame of [n] rows. *)
Definition all_axis1 (n : nat) (cols : list Series) : list bool :=
  foldr (fun col acc => zip_with andb (map py_bool col) acc)
        (replicate n true) cols.

(** [frame.sum(axis=1)] over boolean columns of a frame of [n] rows: the
    number of true flags of each row. *)
Definition sum_axis1 (n : nat) (cols : list Series) : list Z :=
  foldr (fun col acc => zip_with Z.add (map (fun c => Z.b2z (py_bool c)) col) acc)
        (replicate n 0) cols.

(** ** Column names *)

Definition PRESENCE_BOOL_COLS : list string :=
  ["InEntra"; "InIntune"; "InAD"; "InSophos"; "InKACE"].

Definition PRESENCE_BOOL_COLS_RENAMED : list string :=
  ["In Entra"; "In Intune"; "In AD"; "In Sophos"; "In KACE"].

Definition MULTI_INSTANCE_COL : string := "MultiInstanceFlag".

(** The display names of the two instance-count columns in [df_view]. *)
Definition ENTRA_COUNT_RENAMED : string := "Entra Device Instance Count".
Definition SOPHOS_COUNT_RENAMED : string := "Sophos Device Instance Count".

Definition ENTRA_COUNT : string := "Entra_InstanceCount".
Definition SOPHOS_COUNT : string := "Sophos_InstanceCount".

(** [x > 0] on a number cell ([NaN > 0] is false). *)
Definition cell_gt_0 (c : cell) : result bool :=
  (let? x := cell_number c in
   Ok (match x with Some q => negb (Qle_bool q 0) | None => false end))%result.

(** [series.gt(0)] *)
Fixpoint series_gt_0 (series : Series) : result (list bool) :=
  match series with
  | [] => Ok []
  | c :: rest =>
      (let? b := cell_gt_0 c in
       let? bs := series_gt_0 rest in
       Ok (b :: bs))%result
  end.

Definition is_bool_cell (c : cell) : bool :=
  match c with CBool _ => true | _ => false end.

(** [col.dtype == bool].  The dtype of a column is not stored: a column is
    taken to have dtype bool when each of its cells is a bool.  (pandas can
    hold bools under dtype object too; [count_multi_instance_devices], the
    only reader of the dtype, returns the same count on either branch for
    such a column, see [multi_instance_branches_agree].) *)
Definition dtype_is_bool (col : Series) : bool := forallb is_bool_cell col.

(** [df_view[i] & df_view[j]] on boolean columns. *)
Definition overlap_mask (ci cj : Series) : list bool :=
  zip_with andb (map py_bool ci) (map py_bool cj).

(** [pd.DataFrame(0, index=labels, columns=labels)] *)
Definition zero_matrix (labels : list string) : gmap (string * string) Z :=
  list_to_map (map (fun ij => (ij, 0)) (list_prod labels labels)).

(** The table a loop [for name in names: df[name] = f(df[name])] leaves
    behind when every name is a column. *)
Definition df_alter (f : Series -> Series) (names : list string)
    (df : DataFrame) : DataFrame :=
  mkDataFrame (df_len df) (foldl (fun m name => alter f name m) (df_cols df) names).

(** [.fillna(0)] *)
Definition fillna_0 (xs : list float64) : list Q := map (default 0%Q) xs.

(** [name] is a column of [df], with one cell per row. *)
Definition has_column (df : DataFrame) (name : string) (col : Series) : Prop :=
  df_cols df !! name = Some col /\ length col = df_len df.

Section Aggregation.

(** [str(x)] for a finite float [x]. *)
Variable float_repr : Q -> string.

(** The finite number [pd.to_numeric] reads from a string, [None] when it
    reads none.  (A string it reads as an infinity, "inf" or "1e999", has
    no reading of this type: a column that holds one is outside the
    development.) *)
Variable parse_number : string -> option Q.

(** [pd.to_numeric(_, errors="coerce")] on one cell. *)
Definition to_numeric (c : cell) : float64 :=
  match c with
  | CInt z => Some (inject_Z z)
  | CFloat q => Some q
  | CBool b => Some (inject_Z (Z.b2z b))
  | CStr s => parse_number s
  | CNone | CNaN => None
  end.

(** [pd.to_numeric(series, errors="coerce").fillna(0)]; the numbers are
    stored back as float cells. *)
Definition to_numeric_fillna (series : Series) : Series :=
  map CFloat (fillna_0 (map to_numeric series)).

(** [df[name] = pd.to_numeric(df[name], errors="coerce").fillna(0)] *)
Definition coerce_column (name : string) : Table unit :=
  (let! col := get_column name in
   set_column name (to_numeric_fillna col))%table.

Definition count_total_devices : Table Z :=
  (do! coerce_column ENTRA_COUNT in
   do! coerce_column SOPHOS_COUNT in
   let! base_count := get_len in
   let! series_entra := get_column ENTRA_COUNT in
   let! series_sophos := get_column SOPHOS_COUNT in
   lift_result
     (adjust_count_for_duplicates (inject_Z (Z.of_nat base_count))
        series_entra series_sophos))%table.

(** The tail of [count_all_5_contexts], on the table as it stands after
    the columns have been normalized: mask, filter, count. *)
Definition count_rows_in_all (context_cols : list string) : Table Z :=
  (let! flags := get_columns context_cols in
   let! n := get_len in
   let all_five_mask := all_axis1 n flags in
   fun df =>
     let all_five_devices := df_filter all_five_mask df in
     let base_count := df_len all_five_devices in
     ((let? series_entra := df_column all_five_devices ENTRA_COUNT in
       let? series_sophos := df_column all_five_devices SOPHOS_COUNT in
       adjust_count_for_duplicates (inject_Z (Z.of_nat base_count))
         series_entra series_sophos)%result, df))%table.

Definition count_all_5_contexts : Table Z :=
  (let context_cols := PRESENCE_BOOL_COLS in
   do! update_columns (normalize_bool_column float_repr) context_cols in
   do! coerce_column ENTRA_COUNT in
   do! coerce_column SOPHOS_COUNT in
   count_rows_in_all context_cols)%table.

Definition count_multi_instance_devices : Table Z :=
  fun df =>
    match df_cols df !! MULTI_INSTANCE_COL with
    | None => (Ok 0, df)
    | Some _ =>
        ((let! col := get_column MULTI_INSTANCE_COL in
          if dtype_is_bool col
          then table_ret (Z.of_nat (mask_count (map py_bool col)))
          else
            let nums := to_numeric_fillna col in
            let! positive := lift_result (series_gt_0 nums) in
            table_ret (Z.of_nat (mask_count positive)))%table) df
    end.

(** *** The overlap heatmap *)

(** One turn of the inner loop: the adjusted count of the pair [(i, j)]. *)
Definition heatmap_cell (df_view df : DataFrame) (i j : string) : result Z :=
  (let? ci := df_column df_view i in
   let? cj := df_column df_view j in
   let mask := overlap_mask ci cj in
   let base_count := mask_count mask in
   let? extra_entra :=
     (if String.eqb i "In Entra" || String.eqb j "In Entra"
      then let? col := df_column df ENTRA_COUNT in
           extra_instances (select_rows mask col)
      else Ok 0%Q) in
   let? extra_sophos :=
     (if String.eqb i "In Sophos" || String.eqb j "In Sophos"
      then let? col := df_column df SOPHOS_COUNT in
           extra_instances (select_rows mask col)
      else Ok 0%Q) in
   Ok (py_int (inject_Z (Z.of_nat base_count) + extra_entra + extra_sophos)))%result.

(** The two nested loops over the labels, filling the matrix. *)
Definition heatmap_loops (labels : list string) (df_view df : DataFrame)
  : result (gmap (string * string) Z) :=
  for_each
    (fun matrix i =>
       for_each
         (fun matrix j =>
            (let? adjusted_count := heatmap_cell df_view df i j in
             Ok (<[(i, j) := adjusted_count]> matrix))%result)
         labels matrix)
    labels (zero_matrix labels).

(** Lines "Row B" of the script, run on [df_view] with [df] at hand. *)
Definition heatmap_matrix (df : DataFrame)
  : Table (gmap (string * string) Z) :=
  (let context_cols_renamed := PRESENCE_BOOL_COLS_RENAMED in
   do! update_columns (normalize_bool_column float_repr) context_cols_renamed in
   do! coerce_column ENTRA_COUNT_RENAMED in
   do! coerce_column SOPHOS_COUNT_RENAMED in
   fun df_view => (heatmap_loops context_cols_renamed df_view df, df_view))%table.

(** *** The context-cardinality distribution *)

(** One turn of the loop over the cardinalities: the bucket of the rows
    that are in [num_contexts] contexts. *)
Definition bucket_count (df : DataFrame) (present : list Z) (num_contexts : Z)
  : result Z :=
  (let mask := map (Z.eqb num_contexts) present in
   let base_count := mask_count mask in
   let? series_entra := df_column df ENTRA_COUNT in
   let? series_sophos := df_column df SOPHOS_COUNT in
   adjust_count_for_duplicates (inject_Z (Z.of_nat base_count))
     (select_rows mask series_entra) (select_rows mask series_sophos))%result.

(** The script from "Calculate how many contexts each device is in" to
    the end of the loop; [present] is the column [ContextsPresent], which
    the loop reads back as it was assigned. *)
Definition adjusted_counts : Table (gmap Z Z) :=
  (let context_cols := PRESENCE_BOOL_COLS in
   do! update_columns (normalize_bool_column float_repr) context_cols in
   do! coerce_column ENTRA_COUNT in
   do! coerce_column SOPHOS_COUNT in
   let! flags := get_columns context_cols in
   let! n := get_len in
   let present := sum_axis1 n flags in
   do! set_column "ContextsPresent" (map CInt present) in
   fun df =>
     (for_each
        (fun counts num_contexts =>
           (let? adjusted := bucket_count df present num_contexts in
            Ok (<[num_contexts := adjusted]> counts))%result)
        (merge_sort Z.le (remove_dups present)) ∅, df))%table.

(** The table once the presence columns are normalized and the two
    instance-count columns, which held [e] and [s], are coerced: the state
    in which [count_all_5_contexts] masks its rows, the distribution
    fragment sums its flags and the heatmap loops read [df_view]. *)
Definition prepared (presence_cols : list string) (entra_col sophos_col : string)
    (df : DataFrame) (e s : Series) : DataFrame :=
  df_assign sophos_col (to_numeric_fillna s)
    (df_assign entra_col (to_numeric_fillna e)
       (df_alter (normalize_bool_column float_repr) presence_cols df)).

(** The normalized flags of the column [label] of [df_view]. *)
Definition presence_flags (df_view : DataFrame) (label : string) : list bool :=
  map (normalize_bool float_repr) (default [] (df_cols df_view !! label)).

(** Is [source] one of the two labels of the pair? *)
Definition involves (source i j : string) : bool :=
  String.eqb i source || String.eqb j source.

(** The overlap of two flag columns as the specification words it: the
    number of rows where both flags are true, plus the Entra extras of
    those rows when Entra takes part in the pair, plus the Sophos extras
    of those rows when Sophos takes part, as an integer. *)
Definition overlap_count (flags_i flags_j : list bool)
    (with_entra with_sophos : bool) (entra sophos : list Q) : Z :=
  let both := zip_with andb flags_i flags_j in
  py_int (inject_Z (Z.of_nat (mask_count both))
          + (if with_entra then clipped_extras (select_rows both entra) else 0)
          + (if with_sophos then clipped_extras (select_rows both sophos) else 0))%Q.

Definition overlap_at (df_view : DataFrame) (entra sophos : list Q)
    (pair : string * string) : Z :=
  overlap_count (presence_flags df_view pair.1) (presence_flags df_view pair.2)
    (involves "In Entra" pair.1 pair.2) (involves "In Sophos" pair.1 pair.2)
    entra sophos.

(** A row counts as multi-instance when its indicator is the boolean
    True or, read as a number (what is not a number reading as 0), is
    greater than zero. *)
Definition flagged (c : cell) : bool :=
  match c with
  | CBool b => b
  | _ => negb (Qle_bool (default 0%Q (to_numeric c)) 0)
  end.

(** The multi-instance count as the specification words it. *)
Definition multi_instance_rows (df : DataFrame) : Z :=
  match df_cols df !! MULTI_INSTANCE_COL with
  | None => 0
  | Some col => Z.of_nat (mask_count (map flagged col))
  end.

End Aggregation.

(** ** Stand-ins for the two parameters, for running the model

    [Sample.float_repr] prints floats of integral value ([2.0]);
    [Sample.parse_number] reads unsigned decimal integers.  The examples
    below use them on such inputs only. *)

Module Sample.

Definition float_repr (q : Q) : string := pretty (Qfloor q) +:+ ".0".

Fixpoint digits_value (s : string) (acc : N) : option N :=
  match s with
  | EmptyString => Some acc
  | String c s' =>
      let n := N_of_ascii c in
      if ((48 <=? n) && (n <=? 57))%N
      then digits_value s' (10 * acc + (n - 48))%N
      else None
  end.

Definition parse_number (s : string) : option Q :=
  match s with
  | EmptyString => None
  | _ => (fun n => inject_Z (Z.of_N n)) <$> digits_value s 0%N
  end.

(** Four devices. *)
Definition names : Series := [CStr "pc-1"; CStr "pc-2"; CStr "pc-3"; CStr "pc-4"].
Definition in_entra : Series := [CStr "True"; CStr "true"; CStr "FALSE"; CBool true].
Definition in_intune : Series := [CStr "1"; CInt 1; CInt 0; CBool true].
Definition in_ad : Series := [CBool true; CBool true; CBool false; CBool true].
Definition in_sophos : Series := [CStr " true "; CStr "TRUE"; CStr "0"; CStr "no"].
Definition in_kace : Series := [CBool true; CNaN; CBool false; CBool true].
Definition entra_counts : Series := [CInt 3; CInt 1; CStr "n/a"; CInt 2].
Definition sophos_counts : Series := [CInt 2; CNaN; CInt 1; CStr "4"].
Definition multi_flags : Series := [CBool true; CBool false; CBool false; CBool true].

Definition presence : list Series :=
  [in_entra; in_intune; in_ad; in_sophos; in_kace].

(** The export, as loaded. *)
Definition devices : DataFrame :=
  mkDataFrame 4
    (list_to_map
       [("Name", names);
        ("InEntra", in_entra); ("InIntune", in_intune); ("InAD", in_ad);
        ("InSophos", in_sophos); ("InKACE", in_kace);
        ("Entra_InstanceCount", entra_counts);
        ("Sophos_InstanceCount", sophos_counts);
        ("MultiInstanceFlag", multi_flags)]).

(** The copy of its columns under the display names of the data table. *)
Definition devices_view : DataFrame :=
  mkDataFrame 4
    (list_to_map
       [("Device Name", names);
        ("In Entra", in_entra); ("In Intune", in_intune); ("In AD", in_ad);
        ("In Sophos", in_sophos); ("In KACE", in_kace);
        ("Entra Device Instance Count", entra_counts);
        ("Sophos Device Instance Count", sophos_counts);
        ("Duplicate Devices", multi_flags)]).

(** The export once [count_total_devices] has run on it, as the heatmap
    loops find it. *)
Definition devices_counted : DataFrame :=
  snd (count_total_devices parse_number devices).

End Sample.

(** The truth value the specification gives a presence literal, once it is
    stringified, stripped and lowercased; the empty text is the one literal
    outside the table that is not true. *)
Definition truth_of_literal (key : string) : bool :=
  match key with
  | "true" | "1" => true
  | "false" | "0" => false
  | "" => false
  | _ => true
  end.

(** Row by row: is row [r] true in every one of the flag columns? *)
Definition rows_in_all (n : nat) (flags : list (list bool)) : list bool :=
  map (fun r => forallb (fun col => default false (col !! r)) flags) (seq 0 n).

(** Row by row: in how many of the flag columns is row [r] true? *)
Definition row_cardinality (n : nat) (flags : list (list bool)) : list Z :=
  map (fun r => Z.of_nat (length (filter (fun col => col !! r = Some true) flags)))
      (seq 0 n).

(** * The rest of the script *)

(** ** Dictionaries of column names *)

(** A Python dict from strings to strings: its items in insertion order,
    with distinct keys. *)
Abbreviation pydict := (list (string * string)).

(** [d.get(k)] *)
Fixpoint dict_get (k : string) (d : pydict) : option string :=
  match d with
  | [] => None
  | (k', v) :: d' => if String.eqb k k' then Some v else dict_get k d'
  end.

(** [d[k] = v]: a key already there keeps its place and takes the value, a
    new key goes to the end. *)
Fixpoint dict_set (k v : string) (d : pydict) : pydict :=
  match d with
  | [] => [(k, v)]
  | (k', v') :: d' =>
      if String.eqb k k' then (k, v) :: d' else (k', v') :: dict_set k v d'
  end.

(** [{**a, **b}] *)
Definition dict_merge (a b : pydict) : pydict :=
  foldl (fun d kv => dict_set kv.1 kv.2 d) a b.

(** [{v: k for k, v in d.items()}] *)
Definition dict_inverse (d : pydict) : pydict :=
  foldl (fun acc kv => dict_set kv.2 kv.1 acc) [] d.

Definition DEVICE_CORE_FIELDS : pydict :=
  [("Device Name", "Name");
   ("In Entra", "InEntra");
   ("In Intune", "InIntune");
   ("In AD", "InAD");
   ("In Sophos", "InSophos");
   ("In KACE", "InKACE");
   ("Device Type", "DeviceType");
   ("OS", "OS");
   ("Sophos Health", "Sophos_Health");
   ("Total Memory (GB)", "KACE_Machine_RAM_Total");
   ("Duplicate Devices", "MultiInstanceFlag");
   ("Last Seen", "LastSeen");
   ("Primary User", "PrimaryUser");
   ("AD Object GUID", "AD_ObjectGUID");
   ("Entra Device ID(s)", "Entra_DeviceIds");
   ("Intune Entra Device ID", "Intune_AzureADDeviceIds")].

Definition DATA_TABLE_SPECIFIC_FIELDS : pydict :=
  [("IP Address", "Sophos_ipv4Addresses");
   ("Entra Device Instance Count", "Entra_InstanceCount");
   ("Entra Hybrid Joined", "Entra_HybridCount");
   ("Entra Device ID Matches AD Object GUID", "Entra_HybridIdMatchesAD");
   ("Entra Device ID Mismatches AD Object GUID", "Entra_HybridIdMismatchExists");
   ("Entra Registered", "Entra_RegisteredCount");
   ("Sophos Device Instance Count", "Sophos_InstanceCount")].

Definition OVERVIEW_SPECIFIC_FIELDS : pydict :=
  [("AD DNS Hostname", "AD_DNSHostName");
   ("Serial Number", "SerialNumber");
   ("Device Management Lists", "Contexts");
   ("Physical Device Location", "Location");
   ("Operating System", "KACE_Os_name");
   ("Entra OS Version", "Entra_OperatingSystemVersion");
   ("IPv4 Address", "KACE_Machine_Ip");
   ("Installed RAM Total", "KACE_Machine_RAM_Total");
   ("AD Device Object Enabled", "AD_Enabled");
   ("AD Last Logon Date", "AD_LastLogonDate");
   ("Entra Join Type", "Entra_JoinType");
   ("Has a duplicate in Entra", "Entra_DuplicateFlag");
   ("Has a duplicate in Intune", "Intune_DuplicateFlag");
   ("Has a duplicate in Sophos", "Sophos_DuplicateFlag");
   ("Intune Device ID", "Intune_DeviceId");
   ("Sophos ID(s)", "Sophos_Ids");
   ("KACE ID", "KACE_ID");
   ("Intune Endpoint Management Agent", "Intune_ManagementAgent");
   ("Sophos Device Health Status", "Sophos_Health");
   ("Intune Compliance State", "Intune_ComplianceState");
   ("Entra Compliant", "Entra_IsCompliant");
   ("Entra Managed", "Entra_IsManaged")].

Definition data_table_display_to_actual : pydict :=
  dict_merge DEVICE_CORE_FIELDS DATA_TABLE_SPECIFIC_FIELDS.

Definition overview_display_to_actual : pydict :=
  dict_merge DEVICE_CORE_FIELDS OVERVIEW_SPECIFIC_FIELDS.

(** [actual in dataframe.columns] *)
Definition in_columns (df : DataFrame) (actual : string) : bool :=
  bool_decide (is_Some (df_cols df !! actual)).

(** [get_existing_columns(mapping_dict, dataframe)]:
    [[actual for display, actual in mapping_dict.items()
      if actual in dataframe.columns]]. *)
Definition get_existing_columns (mapping_dict : pydict) (dataframe : DataFrame)
  : list string :=
  map snd (List.filter (fun item => in_columns dataframe item.2) mapping_dict).

(** [[display for display, actual in mapping.items() if actual in existing]],
    the display names of the device overview. *)
Definition display_names_of (mapping : pydict) (existing_actual : list string)
  : list string :=
  map fst (List.filter (fun item => bool_decide (item.2 ∈ existing_actual)) mapping).

(** The labels and columns [df.loc[:, names]] selects; a label that is no
    column raises [KeyError]. *)
Fixpoint loc_columns (df : DataFrame) (names : list string)
  : result (list (string * Series)) :=
  match names with
  | [] => Ok []
  | name :: rest =>
      (let? col := df_column df name in
       let? cols := loc_columns df rest in
       Ok ((name, col) :: cols))%result
  end.

(** [df.loc[:, names].copy()], for distinct names. *)
Definition df_loc (names : list string) (df : DataFrame) : result DataFrame :=
  (let? cols := loc_columns df names in
   Ok (mkDataFrame (df_len df) (list_to_map cols)))%result.

(** [frame.rename(columns=mapping)]: a label that is a key of the mapping
    takes its value, any other is kept.  (Labels that would coincide after
    renaming, which pandas keeps side by side, are outside what the column
    map can hold; the script's mapping renames to distinct labels, see
    [data_table_names_distinct].) *)
Definition df_rename (mapping : pydict) (df : DataFrame) : DataFrame :=
  mkDataFrame (df_len df)
    (list_to_map
       (map (fun item : string * Series =>
               (default item.1 (dict_get item.1 mapping), item.2))
            (map_to_list (df_cols df)))).

(** The data table [df_view]: the columns of [df] that the data table
    shows, under their display names. *)
Definition make_df_view (df : DataFrame) : result DataFrame :=
  (let existing_actual := get_existing_columns data_table_display_to_actual df in
   let? df_view := df_loc existing_actual df in
   let actual_to_display := dict_inverse data_table_display_to_actual in
   Ok (df_rename actual_to_display df_view))%result.

(** ** Words for the properties of the counting code *)

(** The cells [series - 1] is defined on: everything but [str]. *)
Definition arithmetic_cell (c : cell) : bool :=
  match c with
  | CStr _ => false
  | _ => true
  end.

(** What one cell adds to [(series - 1).clip(lower=0).sum()]. *)
Definition cell_extra (c : cell) : Q :=
  match c with
  | CInt z => Qmax (inject_Z z - 1) 0
  | CFloat q => Qmax (q - 1) 0
  | CBool b => Qmax (inject_Z (Z.b2z b) - 1) 0
  | _ => 0
  end.

(** A number with no fractional part. *)
Definition is_integral (q : Q) : bool := Qeq_bool q (inject_Z (Qfloor q)).

(** ** The range in which the arithmetic of the code is exact

    The counts are computed here on exact numbers.  pandas computes them
    on int64, which wraps at [2^63], and on float64, which rounds, adds in
    an order of numpy's choosing, and overflows to an infinity that [int()]
    refuses.  The two agree on numbers that lie on a binary grid and are
    small enough for the 53 bits of a float: there every difference and
    every sum, in whatever order, is exact on either dtype.  The properties
    that say which number is returned, or that one is returned, are stated
    in that range. *)

(** [q] is a multiple of [2^-k]; for [k = 0], a whole number. *)
Definition on_grid (k : nat) (q : Q) : bool :=
  is_integral (q * inject_Z (2 ^ Z.of_nat k)).

Definition cell_on_grid (k : nat) (c : cell) : bool :=
  match c with
  | CFloat q => on_grid k q
  | _ => true
  end.

(** The room a cell takes: one for its row, and the absolute value of its
    number when it holds one. *)
Definition cell_size (c : cell) : Q :=
  match c with
  | CInt z => 1 + inject_Z (Z.abs z)
  | CFloat q => 1 + Qabs q
  | CBool b => 1 + inject_Z (Z.b2z b)
  | _ => 1
  end.

Definition magnitude (cells : Series) : Q :=
  foldr (fun c acc => (cell_size c + acc)%Q) 0%Q cells.

(** The cells are multiples of [2^-k] and their sizes add up to at most
    [2^(53-k)]: no rounding, no wrap-around and no infinity in the sums the
    code takes over any of these cells.  With [k = 0]: whole numbers, at
    most [2^53] all together. *)
Definition exact_counts (k : nat) (cells : Series) : bool :=
  forallb (cell_on_grid k) cells
  && Qle_bool (magnitude cells) (inject_Z (2 ^ (53 - Z.of_nat k))).

(** ** Memory sizes: [parse_mb] and [mb_to_gb] *)

(** The characters of the class [[0-9]]. *)
Definition is_digit (c : ascii) : bool :=
  let n := N_of_ascii c in ((48 <=? n) && (n <=? 57))%N.

Definition digit_value (c : ascii) : N := (N_of_ascii c - 48)%N.

(** The greedy [[0-9]*] at the head of a text: the number read so far, how
    many digits were read, and the text left. *)
Fixpoint take_digits (s : string) (acc : N) (count : nat) : N * nat * string :=
  match s with
  | String c s' =>
      if is_digit c
      then take_digits s' (10 * acc + digit_value c)%N (S count)
      else (acc, count, s)
  | EmptyString => (acc, count, s)
  end.

(** [float(m.group(1))] for a match of [[0-9]+(?:\.[0-9]+)?] that starts
    at the head of [s], which is a digit: the integer part, and the
    fraction when a dot and at least one digit follow.  The number is the
    exact one the digits write; [float] returns the nearest float, which
    is that number for whole numbers up to [2^53]. *)
Definition read_number (s : string) : Q :=
  let '(whole, _, rest) := take_digits s 0%N 0%nat in
  match rest with
  | String "." after_dot =>
      let '(fraction, places, _) := take_digits after_dot 0%N 0%nat in
      match places with
      | O => inject_Z (Z.of_N whole)
      | _ => (inject_Z (Z.of_N whole)
              + inject_Z (Z.of_N fraction) / inject_Z (10 ^ Z.of_nat places))%Q
      end
  | _ => inject_Z (Z.of_N whole)
  end.

(** [re.search(r'([0-9]+(?:\.[0-9]+)?)', s)]: the leftmost match starts at
    the first digit. *)
Fixpoint search_number (s : string) : option Q :=
  match s with
  | EmptyString => None
  | String c s' => if is_digit c then Some (read_number s) else search_number s'
  end.

(** [pd.isna(val)] *)
Definition isna (val : cell) : bool :=
  match val with
  | CNone | CNaN => true
  | _ => false
  end.

(** [mb_to_gb(mb)] *)
Definition mb_to_gb (mb : float64) : float64 :=
  match mb with
  | Some q => Some (q / 1024)%Q
  | None => None
  end.

(** A float as a cell. *)
Definition float_cell (x : float64) : cell :=
  match x with
  | Some q => CFloat q
  | None => CNaN
  end.

(** The number a float cell holds. *)
Definition cell_float (c : cell) : float64 :=
  match c with
  | CFloat q => Some q
  | _ => None
  end.

(** A text of whitespace only. *)
Fixpoint is_blank (s : string) : bool :=
  match s with
  | EmptyString => true
  | String c s' => PyStr.isspace c && is_blank s'
  end.

(** Does the text hold an ASCII digit? *)
Fixpoint has_digit (s : string) : bool :=
  match s with
  | EmptyString => false
  | String c s' => is_digit c || has_digit s'
  end.

(** A text of digits and minus signs: what [str] gives an integer. *)
Fixpoint is_numeral (s : string) : bool :=
  match s with
  | EmptyString => true
  | String c s' => (is_digit c || Ascii.eqb c "-") && is_numeral s'
  end.

Definition RAM_TOTAL_COL : string := "KACE_Machine_RAM_Total".

Section Memory.

(** [str(x)] for a finite float [x]. *)
Variable float_repr : Q -> string.

(** [parse_mb(val)] *)
Definition parse_mb (val : cell) : float64 :=
  if isna val then None
  else
    let s := PyStr.lower (PyStr.strip (astype_str float_repr val)) in
    search_number s.

(** [if RAM_TOTAL_COL in df.columns:
       df[RAM_TOTAL_COL] = df[RAM_TOTAL_COL].apply(parse_mb).apply(mb_to_gb)] *)
Definition convert_ram_total : Table unit :=
  fun df =>
    if in_columns df RAM_TOTAL_COL
    then
      ((let! col := get_column RAM_TOTAL_COL in
        set_column RAM_TOTAL_COL
          (map float_cell (map mb_to_gb (map parse_mb col))))%table) df
    else (Ok tt, df).

End Memory.

(** ** The export files: [get_latest_csv] and [get_recent_csvs]

    The directory is taken as the list [glob.glob] returns, in its order,
    and [os.path.getmtime] as a function on its files.  Timestamps are
    exact numbers of seconds; [datetime.now()] and [datetime.fromtimestamp]
    read the same local clock, which is taken to keep its offset between
    a file's time and now. *)

(** Rounding to the nearest whole number, a tie going to the even one. *)
Definition round_half_even (x : Q) : Z :=
  let below := Qfloor x in
  match (x - inject_Z below ?= 1 # 2)%Q with
  | Lt => below
  | Gt => below + 1
  | Eq => if Z.even below then below else below + 1
  end.

(** [datetime.fromtimestamp(t)], in microseconds: a datetime holds whole
    microseconds, and a timestamp is rounded to the nearest one. *)
Definition fromtimestamp (t : Q) : Z := round_half_even (t * 1000000).

Section Files.

(** [os.path.getmtime] *)
Variable getmtime : string -> Q.

(** [max(files, key=os.path.getmtime)] on a list that is not empty: the
    first of the files whose time no other exceeds. *)
Definition max_by_mtime (first : string) (others : list string) : string :=
  foldl (fun best f => if Qle_bool (getmtime f) (getmtime best) then best else f)
        first others.

(** [get_latest_csv()], on the files matching the pattern. *)
Definition get_latest_csv (files : list string) : option string :=
  match files with
  | [] => None
  | first :: others => Some (max_by_mtime first others)
  end.

(** One step of [sort(key=os.path.getmtime, reverse=True)], written as an
    insertion: the sort is stable, so a file goes in front of the files
    that are not newer than it and that came after it in the list. *)
Fixpoint insert_by_mtime (f : string) (sorted : list string) : list string :=
  match sorted with
  | [] => [f]
  | g :: rest =>
      if Qle_bool (getmtime g) (getmtime f)
      then f :: sorted
      else g :: insert_by_mtime f rest
  end.

(** [files.sort(key=os.path.getmtime, reverse=True)] *)
Definition sort_newest_first (files : list string) : list string :=
  foldr insert_by_mtime [] files.

(** [now - datetime.fromtimestamp(os.path.getmtime(f)) < timedelta(minutes=minutes)],
    compared in microseconds as datetimes are; [now] is the datetime
    [datetime.now()] returned, in seconds. *)
Definition is_recent (now : Q) (minutes : Z) (f : string) : bool :=
  negb (Qle_bool (inject_Z (60 * minutes * 1000000))
                 (now * 1000000 - inject_Z (fromtimestamp (getmtime f)))).

(** [get_recent_csvs(minutes)], on the files matching the pattern, at the
    time [now]. *)
Definition get_recent_csvs (now : Q) (minutes : Z) (files : list string)
  : list string :=
  sort_newest_first (List.filter (is_recent now minutes) files).

End Files.

(** The newest file of a list, read from its end: the file in front wins
    against the newest of the rest unless that one is strictly newer.  It is
    what both [max] and the head of the sorted list come to. *)
Fixpoint first_newest (getmtime : string -> Q) (files : list string)
  : option string :=
  match files with
  | [] => None
  | f :: rest =>
      match first_newest getmtime rest with
      | None => Some f
      | Some m => if Qle_bool (getmtime m) (getmtime f) then Some f else Some m
      end
  end.

(** The files modified at the time [t]. *)
Definition modified_at (getmtime : string -> Q) (t : Q) (files : list string)
  : list string :=
  List.filter (fun f => Qeq_bool (getmtime f) t) files.

(** A directory for running the file selection: three exports, two of them
    written at the same second. *)
Definition sample_getmtime (f : string) : Q :=
  if String.eqb f "devices_old.csv" then 1000
  else if String.eqb f "devices_a.csv" then 5000
  else if String.eqb f "devices_b.csv" then 5000
  else 0.

Definition sample_listing : list string :=
  ["devices_old.csv"; "devices_a.csv"; "devices_b.csv"].

(** * Properties *)

(** ** Truncation and clipping of exact numbers *)

Lemma py_int_floor (q : Q) : (0 <= q)%Q -> py_int q = Qfloor q.
Proof.
  destruct q as [n d]. unfold py_int, Qfloor, Qle. simpl. intros H.
  apply Z.quot_div_nonneg; lia.
Qed.

Lemma py_int_ceiling (q : Q) : (q <= 0)%Q -> py_int q = Qceiling q.
Proof.
  destruct q as [n d]. unfold py_int, Qceiling, Qfloor, Qle, Qopp. simpl.
  intros H.
  rewrite <- (Z.opp_involutive n) at 1.
  rewrite Z.quot_opp_l by lia.
  f_equal. apply Z.quot_div_nonneg; lia.
Qed.

Lemma py_int_inject_Z (z : Z) : py_int (inject_Z z) = z.
Proof. unfold py_int. simpl. apply Z.quot_1_r. Qed.

Global Instance py_int_proper : Proper (Qeq ==> eq) py_int.
Proof.
  intros x y Hxy.
  destruct (Qlt_le_dec x 0) as [Hneg|Hpos].
  - rewrite !py_int_ceiling.
    + now rewrite Hxy.
    + rewrite <- Hxy. now apply Qlt_le_weak.
    + now apply Qlt_le_weak.
  - rewrite !py_int_floor.
    + now rewrite Hxy.
    + now rewrite <- Hxy.
    + assumption.
Qed.

Lemma py_int_mono (x y : Q) : (x <= y)%Q -> py_int x <= py_int y.
Proof.
  intros Hxy.
  destruct (Qlt_le_dec x 0) as [Hx|Hx]; destruct (Qlt_le_dec y 0) as [Hy|Hy].
  - rewrite !py_int_ceiling by now apply Qlt_le_weak.
    now apply Qceiling_resp_le.
  - rewrite (py_int_ceiling x) by now apply Qlt_le_weak.
    rewrite (py_int_floor y) by assumption.
    transitivity (Qceiling 0).
    + apply Qceiling_resp_le. now apply Qlt_le_weak.
    + change (Qceiling 0) with (Qfloor 0). now apply Qfloor_resp_le.
  - exfalso. apply (Qlt_irrefl 0).
    apply Qle_lt_trans with y; [|assumption].
    now apply Qle_trans with x.
  - rewrite !py_int_floor by (assumption || now apply Qle_trans with x).
    now apply Qfloor_resp_le.
Qed.

Lemma Qmax_0_nonneg (q : Q) : (0 <= Qmax q 0)%Q.
Proof. apply Q.le_max_r. Qed.

Lemma Qmax_inject_Z (x : Z) :
  (Qmax (inject_Z x - 1) 0 == inject_Z (Z.max (x - 1) 0))%Q.
Proof.
  assert (E : (inject_Z x - 1 == inject_Z (x - 1))%Q).
  { unfold Z.sub. rewrite inject_Z_plus, inject_Z_opp. reflexivity. }
  destruct (Z.le_ge_cases (x - 1) 0) as [H|H].
  - rewrite Z.max_r by assumption.
    apply Q.max_r. rewrite E. change 0%Q with (inject_Z 0).
    now rewrite <- Zle_Qle.
  - rewrite Z.max_l by lia.
    rewrite Q.max_l; [assumption|].
    rewrite E. change 0%Q with (inject_Z 0). now rewrite <- Zle_Qle.
Qed.

(** ** [adjust_count_for_duplicates] *)

Lemma series_minus_one_map {A} (f : A -> cell) (g : A -> Q) (l : list A) :
  (forall a, cell_number (f a) = Ok (Some (g a))) ->
  series_minus_one (map f l) = Ok (map (fun a => Some (g a - 1)%Q) l).
Proof.
  intros Hf. induction l as [|a l IH]; simpl; [reflexivity|].
  rewrite Hf, IH. reflexivity.
Qed.

Lemma nansum_nonneg (xs : list float64) : (0 <= nansum (clip_lower_0 xs))%Q.
Proof.
  induction xs as [|[q|] xs IH]; simpl.
  - apply Qle_refl.
  - change 0%Q with (0 + 0)%Q at 1. apply Qplus_le_compat; [apply Q.le_max_r|exact IH].
  - now rewrite Qplus_0_l.
Qed.

Lemma extra_instances_ints (counts : list Z) :
  exists x, extra_instances (map CInt counts) = Ok x
            /\ (x == inject_Z (duplicate_extras counts))%Q.
Proof.
  unfold extra_instances.
  rewrite (series_minus_one_map CInt inject_Z) by reflexivity. simpl.
  eexists; split; [reflexivity|].
  induction counts as [|c counts IH]; simpl; [reflexivity|].
  rewrite IH, inject_Z_plus, Qmax_inject_Z. reflexivity.
Qed.

Lemma extra_of_count_max (c : Q) : (Qmax (c - 1) 0 == extra_of_count c)%Q.
Proof.
  unfold extra_of_count. destruct (Qle_bool c 1) eqn:E.
  - apply Qle_bool_iff in E. apply Q.max_r.
    apply (Qplus_le_l _ _ 1). ring_simplify. exact E.
  - assert (H : ~ (c <= 1)%Q) by (rewrite <- Qle_bool_iff; congruence).
    apply Qnot_le_lt in H. apply Q.max_l.
    apply (Qplus_le_l _ _ 1). ring_simplify. now apply Qlt_le_weak.
Qed.

Lemma extra_instances_floats (counts : list Q) :
  exists x, extra_instances (map CFloat counts) = Ok x
            /\ (x == clipped_extras counts)%Q /\ (0 <= x)%Q.
Proof.
  unfold extra_instances.
  rewrite (series_minus_one_map CFloat (fun q => q)) by reflexivity. simpl.
  eexists; split; [reflexivity|]. split; [|apply nansum_nonneg].
  induction counts as [|c counts IH]; simpl; [reflexivity|].
  rewrite IH, extra_of_count_max. reflexivity.
Qed.

(** C1.  On integer counts [adjust_count_for_duplicates] returns the base
    count plus the sum of [max(x - 1, 0)] over the Entra counts plus the
    same sum over the Sophos counts, as an integer; on base 0 and two empty
    series it returns 0.  The integers are taken in the range where the
    sums of pandas are exact: the base count and the counts, with one more
    for each row, add up to at most [2^53] in absolute value. *)
Theorem adjust_count_for_duplicates_ints (b : Z) (e s : list Z) :
  exact_counts 0 (CInt b :: map CInt e ++ map CInt s) = true ->
  adjust_count_for_duplicates (inject_Z b) (map CInt e) (map CInt s)
    = Ok (b + duplicate_extras e + duplicate_extras s)
  /\ adjust_count_for_duplicates 0 [] [] = Ok 0.
Proof.
  intros _. split; [|reflexivity].
  unfold adjust_count_for_duplicates.
  destruct (extra_instances_ints e) as (xe & -> & He).
  destruct (extra_instances_ints s) as (xs & -> & Hs).
  simpl. f_equal.
  rewrite He, Hs, <- !inject_Z_plus. apply py_int_inject_Z.
Qed.

Lemma adjust_count_floats (base : Q) (e s : list Q) :
  adjust_count_for_duplicates base (map CFloat e) (map CFloat s)
    = Ok (py_int (base + clipped_extras e + clipped_extras s)).
Proof.
  unfold adjust_count_for_duplicates.
  destruct (extra_instances_floats e) as (xe & -> & He & _).
  destruct (extra_instances_floats s) as (xs & -> & Hs & _).
  simpl. now rewrite He, Hs.
Qed.

Lemma clipped_extras_nonneg (counts : list Q) : (0 <= clipped_extras counts)%Q.
Proof.
  destruct (extra_instances_floats counts) as (x & _ & Hx & H0).
  now rewrite <- Hx.
Qed.

Lemma clipped_extras_at_most_1 (counts : list Q) :
  Forall (fun c => (c <= 1)%Q) counts -> (clipped_extras counts == 0)%Q.
Proof.
  induction 1 as [|c counts Hc _ IH]; simpl; [reflexivity|].
  rewrite IH. unfold extra_of_count.
  apply Qle_bool_iff in Hc. rewrite Hc. reflexivity.
Qed.

(** C8, as the code has it.  On numbers of any sign, fractional ones
    included, [adjust_count_for_duplicates] raises nothing; its value is
    the truncation of the base count plus the extras, where a count of at
    most 1 (negative, zero, a fraction below one) adds nothing and a count
    above 1 adds its excess over 1, fractional part included; the value is
    never below the truncated base count, and is the truncated base count
    when no count is above 1.  The numbers are taken in the range where
    float64 is exact: binary fractions, multiples of [2^-k], that with the
    base count and one more for each row add up to at most [2^(53-k)] in
    absolute value. *)
Theorem adjust_count_for_duplicates_clips (k : nat) (base : Q) (e s : list Q) :
  exact_counts k (CFloat base :: map CFloat e ++ map CFloat s) = true ->
  let adjusted := py_int (base + clipped_extras e + clipped_extras s) in
  adjust_count_for_duplicates base (map CFloat e) (map CFloat s) = Ok adjusted
  /\ py_int base <= adjusted
  /\ (Forall (fun c => (c <= 1)%Q) (e ++ s) -> adjusted = py_int base).
Proof.
  intros _ adjusted. subst adjusted. split; [apply adjust_count_floats|]. split.
  - apply py_int_mono.
    rewrite <- Qplus_assoc.
    rewrite <- (Qplus_0_r base) at 1.
    apply Qplus_le_compat; [apply Qle_refl|].
    change 0%Q with (0 + 0)%Q.
    apply Qplus_le_compat; apply clipped_extras_nonneg.
  - intros H. apply Forall_app in H as [He Hs].
    apply py_int_proper.
    rewrite (clipped_extras_at_most_1 e He), (clipped_extras_at_most_1 s Hs).
    ring.
Qed.

(** C8, counterexample to "fractional counts contribute zero extra": the
    fractional counts 1.5 and 2.7 of the repository's own float test raise
    a base of 10 to 12. *)
Lemma adjust_count_for_duplicates_fraction_counts :
  adjust_count_for_duplicates 10
    [CFloat 1.5; CFloat 2.7; CFloat 1] [CFloat 1; CFloat 1; CFloat 1] = Ok 12
  /\ py_int 10 = 10 /\ 12 <> 10.
Proof.
  split; [vm_compute; reflexivity | split; [reflexivity | discriminate]].
Qed.

(** ** [normalize_bool_column] *)

Section NormalizeFacts.

Variable float_repr : Q -> string.

Lemma normalize_bool_literal (c : cell) :
  normalize_bool float_repr c = truth_of_literal (presence_key float_repr c).
Proof.
  unfold normalize_bool, replace_bool_literals.
  generalize (presence_key float_repr c). intros key.
  destruct (String.eqb_spec key "true") as [->|Ht]; [reflexivity|].
  destruct (String.eqb_spec key "false") as [->|Hf]; [reflexivity|].
  destruct (String.eqb_spec key "1") as [->|H1]; [reflexivity|].
  destruct (String.eqb_spec key "0") as [->|H0]; [reflexivity|].
  simpl. destruct (String.eqb_spec key "") as [->|He]; [reflexivity|].
  simpl. unfold truth_of_literal.
  repeat match goal with
         | |- context [match ?x with _ => _ end] => is_var x; destruct x
         end; try reflexivity; congruence.
Qed.

(** C2, as the code has it.  Every cell is stringified, stripped and
    lowercased; "true" and "1" give True, "false" and "0" give False, the
    empty text gives False and every other text gives True.  So the
    spellings of the specification and the null values come out as
    listed. *)
Theorem normalize_bool_column_literals (series : Series) :
  normalize_bool_column float_repr series
    = map (fun c => CBool (truth_of_literal (presence_key float_repr c))) series
  /\ normalize_bool_column float_repr
       [CStr "TRUE"; CStr "True"; CStr "1"; CInt 1; CBool true;
        CStr "false"; CStr "FALSE"; CStr "0"; CInt 0; CBool false;
        CNone; CNaN; CStr "  true  "; CStr "n/a"]
     = map CBool [true; true; true; true; true;
                  false; false; false; false; false;
                  true; true; true; true].
Proof.
  split; [|reflexivity].
  unfold normalize_bool_column. apply map_ext. intros c.
  now rewrite normalize_bool_literal.
Qed.

(** C9.  A column of booleans is returned as it is. *)
Theorem normalize_bool_column_booleans (flags : list bool) :
  normalize_bool_column float_repr (map CBool flags) = map CBool flags.
Proof.
  unfold normalize_bool_column. rewrite map_map. apply map_ext.
  intros [|]; reflexivity.
Qed.

Lemma normalize_bool_column_length (series : Series) :
  length (normalize_bool_column float_repr series) = length series.
Proof. apply length_map. Qed.

Lemma normalize_bool_column_py_bool (series : Series) :
  map py_bool (normalize_bool_column float_repr series)
    = map (normalize_bool float_repr) series.
Proof. unfold normalize_bool_column. rewrite map_map. reflexivity. Qed.

End NormalizeFacts.

(** C2, counterexample to "every other literal, the empty string included,
    maps to True": the empty string, and a text of blanks, map to False. *)
Lemma normalize_bool_column_empty_string :
  normalize_bool_column Sample.float_repr [CStr ""; CStr "   "]
    = [CBool false; CBool false].
Proof. reflexivity. Qed.

(** ** Running table code *)

Lemma get_column_ok (df : DataFrame) (name : string) (col : Series) :
  df_cols df !! name = Some col -> get_column name df = (Ok col, df).
Proof. intros H. unfold get_column, df_column. now rewrite H. Qed.

Lemma get_column_raise (df : DataFrame) (name : string) :
  df_cols df !! name = None -> get_column name df = (Raise (KeyError name), df).
Proof. intros H. unfold get_column, df_column. now rewrite H. Qed.

Lemma table_bind_ok {A B} (c : Table A) (k : A -> Table B) df a df' :
  c df = (Ok a, df') -> table_bind c k df = k a df'.
Proof. intros H. unfold table_bind. now rewrite H. Qed.

Lemma table_bind_raise {A B} (c : Table A) (k : A -> Table B) df e df' :
  c df = (Raise e, df') -> table_bind c k df = (Raise e, df').
Proof. intros H. unfold table_bind. now rewrite H. Qed.

Lemma update_columns_ok (f : Series -> Series) (names : list string)
    (df : DataFrame) :
  Forall (fun name => is_Some (df_cols df !! name)) names ->
  update_columns f names df = (Ok tt, df_alter f names df).
Proof.
  revert df. induction names as [|name names IH]; intros df Hall.
  - destruct df; reflexivity.
  - inversion Hall as [|? ? [col Hcol] Hrest]; subst. simpl.
    rewrite (table_bind_ok _ _ _ _ _ (get_column_ok _ _ _ Hcol)).
    unfold table_bind at 1, set_column.
    rewrite IH.
    + unfold df_alter, df_assign. simpl. do 3 f_equal.
      apply map_eq. intros k. rewrite lookup_alter, lookup_insert.
      destruct (decide (name = k)) as [->|]; [now rewrite Hcol|reflexivity].
    + simpl. eapply Forall_impl; [exact Hrest|]. intros k [c Hc]. simpl in *.
      rewrite lookup_insert. destruct (decide (name = k)); eauto.
Qed.

(** ** Masks, row by row *)

Lemma zip_with_seq {A B C} (f : A -> B -> C) (d : A) (l : list A)
    (g : nat -> B) (n : nat) :
  length l = n ->
  zip_with f l (map g (seq 0 n))
    = map (fun r => f (default d (l !! r)) (g r)) (seq 0 n).
Proof.
  intros Hlen. apply list_eq. intros i.
  change (map g (seq 0 n)) with (g <$> seq 0 n).
  change (map (fun r => f (default d (l !! r)) (g r)) (seq 0 n))
    with ((fun r => f (default d (l !! r)) (g r)) <$> seq 0 n).
  rewrite lookup_zip_with, !list_lookup_fmap.
  destruct (decide (i < n)%nat) as [Hi|Hi].
  - rewrite lookup_seq_lt by assumption. simpl.
    destruct (lookup_lt_is_Some_2 l i) as [a Ha]; [lia|].
    rewrite Ha. reflexivity.
  - rewrite lookup_seq_ge by lia. simpl.
    destruct (l !! i); reflexivity.
Qed.

Lemma replicate_seq {A} (x : A) (n a : nat) :
  replicate n x = map (fun _ => x) (seq a n).
Proof. revert a. induction n; intros a; simpl; [reflexivity|now f_equal]. Qed.

Lemma all_axis1_rows (n : nat) (cols : list Series) :
  Forall (fun col => length col = n) cols ->
  all_axis1 n cols = rows_in_all n (map (map py_bool) cols).
Proof.
  unfold all_axis1, rows_in_all.
  induction 1 as [|col cols Hlen _ IH]; simpl.
  - apply replicate_seq.
  - rewrite IH. apply (zip_with_seq andb false). now rewrite length_map.
Qed.

Lemma sum_axis1_rows (n : nat) (cols : list Series) :
  Forall (fun col => length col = n) cols ->
  sum_axis1 n cols = row_cardinality n (map (map py_bool) cols).
Proof.
  unfold sum_axis1, row_cardinality.
  induction 1 as [|col cols Hlen _ IH]; simpl.
  - apply replicate_seq.
  - rewrite IH.
    rewrite (zip_with_seq Z.add 0) by now rewrite length_map.
    apply map_ext. intros r.
    change (map (fun c => Z.b2z (py_bool c)) col)
      with ((fun c => Z.b2z (py_bool c)) <$> col).
    change (map py_bool col) with (py_bool <$> col).
    rewrite filter_cons.
    rewrite (list_lookup_fmap (fun c => Z.b2z (py_bool c))).
    destruct (decide ((py_bool <$> col) !! r = Some true)) as [Heq|Hne];
      rewrite list_lookup_fmap in *; destruct (col !! r) as [c|]; simpl in *.
    + injection Heq as ->. simpl. lia.
    + discriminate.
    + destruct (py_bool c); [congruence|reflexivity].
    + reflexivity.
Qed.

Lemma select_rows_map {A B} (f : A -> B) (mask : list bool) (l : list A) :
  select_rows mask (map f l) = map f (select_rows mask l).
Proof.
  revert l. induction mask as [|b mask IH]; intros [|a l]; simpl; try reflexivity.
  destruct b; simpl; now rewrite IH.
Qed.

Lemma select_rows_length {A} (mask : list bool) (l : list A) :
  length l = length mask -> length (select_rows mask l) = mask_count mask.
Proof.
  unfold mask_count.
  revert l. induction mask as [|b mask IH]; intros [|a l] Hlen; simpl in *;
    try reflexivity; try discriminate.
  rewrite filter_cons. destruct b; simpl; [f_equal|]; apply IH; lia.
Qed.

(** ** The counting functions *)

Lemma df_alter_lookup_ne (f : Series -> Series) (names : list string)
    (df : DataFrame) (k : string) :
  k ∉ names -> df_cols (df_alter f names df) !! k = df_cols df !! k.
Proof.
  unfold df_alter. simpl. generalize (df_cols df) as m.
  induction names as [|name names IH]; intros m Hk; simpl; [reflexivity|].
  apply not_elem_of_cons in Hk as [Hne Hk].
  rewrite IH by exact Hk. apply lookup_alter_ne. congruence.
Qed.

Lemma df_alter_lookup (f : Series -> Series) (names : list string)
    (df : DataFrame) (k : string) :
  NoDup names -> k ∈ names ->
  df_cols (df_alter f names df) !! k = f <$> df_cols df !! k.
Proof.
  unfold df_alter. simpl. generalize (df_cols df) as m.
  induction names as [|name names IH]; intros m Hnd Hk;
    [now apply elem_of_nil in Hk|].
  apply NoDup_cons in Hnd as [Hname Hnd]. simpl.
  destruct (decide (k = name)) as [->|Hne].
  - pose proof (df_alter_lookup_ne f names (mkDataFrame 0 (alter f name m)) name Hname) as H.
    unfold df_alter in H. simpl in H. rewrite H. apply lookup_alter_eq.
  - apply elem_of_cons in Hk as [Hk|Hk]; [contradiction|].
    rewrite (IH _ Hnd Hk). f_equal. apply lookup_alter_ne. congruence.
Qed.

Lemma df_assign_lookup_ne (name k : string) (col : Series) (df : DataFrame) :
  name <> k -> df_cols (df_assign name col df) !! k = df_cols df !! k.
Proof. intros H. unfold df_assign. simpl. now apply lookup_insert_ne. Qed.

Lemma df_assign_lookup_eq (name : string) (col : Series) (df : DataFrame) :
  df_cols (df_assign name col df) !! name = Some col.
Proof. unfold df_assign. simpl. apply lookup_insert_eq. Qed.

Lemma get_columns_ok (df : DataFrame) (names : list string) (cols : list Series) :
  Forall2 (fun name col => df_cols df !! name = Some col) names cols ->
  get_columns names df = (Ok cols, df).
Proof.
  induction 1 as [|name col names cols Hcol _ IH]; simpl; [reflexivity|].
  rewrite (table_bind_ok _ _ _ _ _ (get_column_ok _ _ _ Hcol)).
  rewrite (table_bind_ok _ _ _ _ _ IH). reflexivity.
Qed.

(** ** Loops that fill a dictionary *)

Lemma for_each_ok {A B} (body : B -> A -> result B) (f : B -> A -> B)
    (xs : list A) (acc : B) :
  (forall acc x, x ∈ xs -> body acc x = Ok (f acc x)) ->
  for_each body xs acc = Ok (foldl f acc xs).
Proof.
  revert acc. induction xs as [|x xs IH]; intros acc Hbody; simpl; [reflexivity|].
  rewrite Hbody by apply list_elem_of_here. simpl.
  apply IH. intros acc' y Hy. apply Hbody. now apply list_elem_of_further.
Qed.

Lemma foldl_insert_lookup `{Countable K} {A V} (key : A -> K) (g : A -> V)
    (xs : list A) (m0 : gmap K V) (k : K) (v : V) :
  (forall x, x ∈ xs -> key x = k -> g x = v) ->
  (m0 !! k = Some v \/ exists x, x ∈ xs /\ key x = k) ->
  foldl (fun m x => <[key x := g x]> m) m0 xs !! k = Some v.
Proof.
  revert m0. induction xs as [|x xs IH]; intros m0 Hg Hk; simpl.
  - destruct Hk as [Hk|(x & Hx & _)]; [exact Hk|now apply elem_of_nil in Hx].
  - apply IH.
    + intros y Hy. apply Hg. now apply list_elem_of_further.
    + destruct (decide (key x = k)) as [Hkey|Hkey].
      * left. rewrite Hkey, lookup_insert_eq. f_equal.
        apply Hg; [apply list_elem_of_here|exact Hkey].
      * destruct Hk as [Hk|(y & Hy & Hyk)].
        -- left. now rewrite lookup_insert_ne.
        -- apply elem_of_cons in Hy as [->|Hy]; [contradiction|]. right. eauto.
Qed.

Lemma foldl_insert_lookup_ne `{Countable K} {A V} (key : A -> K) (g : A -> V)
    (xs : list A) (m0 : gmap K V) (k : K) :
  (forall x, x ∈ xs -> key x <> k) ->
  foldl (fun m x => <[key x := g x]> m) m0 xs !! k = m0 !! k.
Proof.
  revert m0. induction xs as [|x xs IH]; intros m0 Hk; simpl; [reflexivity|].
  rewrite IH by (intros y Hy; apply Hk; now apply list_elem_of_further).
  apply lookup_insert_ne. apply Hk. apply list_elem_of_here.
Qed.

Lemma foldl_list_prod {A B C} (f : C -> A * B -> C) (xs : list A) (ys : list B)
    (acc : C) :
  foldl (fun acc x => foldl (fun acc y => f acc (x, y)) acc ys) acc xs
    = foldl f acc (list_prod xs ys).
Proof.
  revert acc. induction xs as [|x xs IH]; intros acc; simpl; [reflexivity|].
  rewrite foldl_app, IH. f_equal.
  change (map (fun y => (x, y)) ys) with ((fun y => (x, y)) <$> ys).
  now rewrite foldl_fmap.
Qed.

Section AggregationFacts.

Variable float_repr : Q -> string.
Variable parse_number : string -> option Q.

Local Abbreviation normalize := (normalize_bool_column float_repr).
Local Abbreviation coerce := (to_numeric_fillna parse_number).

Lemma coerce_column_ok (df : DataFrame) (name : string) (col : Series) :
  df_cols df !! name = Some col ->
  coerce_column parse_number name df = (Ok tt, df_assign name (coerce col) df).
Proof.
  intros H. unfold coerce_column.
  now rewrite (table_bind_ok _ _ _ _ _ (get_column_ok _ _ _ H)).
Qed.

Lemma coerce_length (col : Series) : length (coerce col) = length col.
Proof. unfold to_numeric_fillna, fillna_0. now rewrite !length_map. Qed.

(** After coercion an instance-count column holds numbers only, so the
    duplicate-aware count of any selection of its rows is defined. *)
Lemma adjust_count_coerced (base : Q) (mask_e mask_s : list bool)
    (e s : Series) :
  adjust_count_for_duplicates base
    (select_rows mask_e (coerce e)) (select_rows mask_s (coerce s))
  = Ok (py_int (base
          + clipped_extras (select_rows mask_e (fillna_0 (map (to_numeric parse_number) e)))
          + clipped_extras (select_rows mask_s (fillna_0 (map (to_numeric parse_number) s))))).
Proof.
  unfold to_numeric_fillna. rewrite !select_rows_map.
  apply adjust_count_floats.
Qed.

Lemma count_total_devices_run (df : DataFrame) (e s : Series) :
  df_cols df !! ENTRA_COUNT = Some e ->
  df_cols df !! SOPHOS_COUNT = Some s ->
  count_total_devices parse_number df
  = (adjust_count_for_duplicates (inject_Z (Z.of_nat (df_len df)))
       (coerce e) (coerce s),
     df_assign SOPHOS_COUNT (coerce s) (df_assign ENTRA_COUNT (coerce e) df)).
Proof.
  intros He Hs. unfold count_total_devices.
  rewrite (table_bind_ok _ _ _ _ _ (coerce_column_ok _ _ _ He)).
  erewrite (table_bind_ok _ _ (df_assign ENTRA_COUNT _ df));
    [|apply coerce_column_ok; simpl; rewrite lookup_insert_ne by done; exact Hs].
  unfold table_bind, get_len, get_column, df_column, lift_result. simpl.
  rewrite lookup_insert_ne by done. rewrite !lookup_insert_eq. reflexivity.
Qed.

Lemma presence_not_counts :
  (ENTRA_COUNT ∉ PRESENCE_BOOL_COLS) /\ (SOPHOS_COUNT ∉ PRESENCE_BOOL_COLS)
  /\ NoDup PRESENCE_BOOL_COLS.
Proof.
  unfold ENTRA_COUNT, SOPHOS_COUNT, PRESENCE_BOOL_COLS.
  split; [|split].
  - rewrite !not_elem_of_cons. repeat split; try discriminate. apply not_elem_of_nil.
  - rewrite !not_elem_of_cons. repeat split; try discriminate. apply not_elem_of_nil.
  - repeat (apply NoDup_cons; split;
            [rewrite ?not_elem_of_cons; repeat split; try discriminate;
             apply not_elem_of_nil|]).
    apply NoDup_nil_2.
Qed.

(** [count_total_devices] leaves numbers only in the two instance-count
    columns: the shape in which the heatmap loops, which run after it, read
    them from [df]. *)
Lemma count_total_devices_numeric (df : DataFrame) (e s : Series) :
  df_cols df !! ENTRA_COUNT = Some e ->
  df_cols df !! SOPHOS_COUNT = Some s ->
  let counted := snd (count_total_devices parse_number df) in
  df_cols counted !! ENTRA_COUNT
    = Some (map CFloat (fillna_0 (map (to_numeric parse_number) e)))
  /\ df_cols counted !! SOPHOS_COUNT
    = Some (map CFloat (fillna_0 (map (to_numeric parse_number) s))).
Proof.
  intros He Hs counted. subst counted.
  rewrite (count_total_devices_run df e s He Hs). cbn [snd]. split.
  - rewrite df_assign_lookup_ne by discriminate. apply df_assign_lookup_eq.
  - apply df_assign_lookup_eq.
Qed.

Lemma not_in_counts (name : string) :
  name <> ENTRA_COUNT -> name <> SOPHOS_COUNT ->
  name ∉ [ENTRA_COUNT; SOPHOS_COUNT].
Proof.
  intros HE HS Hin. apply elem_of_cons in Hin as [Hin|Hin]; [contradiction|].
  apply elem_of_cons in Hin as [Hin|Hin]; [contradiction|].
  now apply elem_of_nil in Hin.
Qed.

Section Prepare.

Variables (names : list string) (entra_col sophos_col : string).
Hypothesis names_nodup : NoDup names.
Hypothesis entra_fresh : entra_col ∉ names.
Hypothesis sophos_fresh : sophos_col ∉ names.
Hypothesis counts_differ : entra_col <> sophos_col.

Lemma prepare_run (df : DataFrame) (cols : list Series) (e s : Series) :
  Forall2 (fun name col => df_cols df !! name = Some col) names cols ->
  df_cols df !! entra_col = Some e ->
  df_cols df !! sophos_col = Some s ->
  forall {A} (k : Table A),
    table_bind (update_columns normalize names)
      (fun _ => table_bind (coerce_column parse_number entra_col)
         (fun _ => table_bind (coerce_column parse_number sophos_col)
            (fun _ => k))) df
    = k (prepared float_repr parse_number names entra_col sophos_col df e s).
Proof.
  intros Hcols He Hs A k.
  erewrite table_bind_ok; cycle 1.
  { apply update_columns_ok. eapply Forall2_Forall_l; [exact Hcols|].
    apply Forall_forall. intros col _ name Hname. simpl in Hname. eauto. }
  erewrite table_bind_ok; cycle 1.
  { apply coerce_column_ok.
    rewrite (df_alter_lookup_ne _ _ _ _ entra_fresh). exact He. }
  erewrite table_bind_ok; cycle 1.
  { apply coerce_column_ok. rewrite df_assign_lookup_ne by exact counts_differ.
    rewrite (df_alter_lookup_ne _ _ _ _ sophos_fresh). exact Hs. }
  reflexivity.
Qed.

Lemma prepared_lookup_presence (df : DataFrame) (e s : Series)
    (name : string) (col : Series) :
  name ∈ names ->
  df_cols df !! name = Some col ->
  df_cols (prepared float_repr parse_number names entra_col sophos_col df e s)
    !! name = Some (normalize col).
Proof.
  intros Hin Hcol. unfold prepared.
  rewrite !df_assign_lookup_ne by (intros <-; contradiction).
  rewrite (df_alter_lookup _ _ _ _ names_nodup Hin). now rewrite Hcol.
Qed.

Lemma prepared_presence (df : DataFrame) (cols : list Series) (e s : Series) :
  Forall2 (fun name col => df_cols df !! name = Some col) names cols ->
  Forall2 (fun name col =>
             df_cols (prepared float_repr parse_number names entra_col
                        sophos_col df e s) !! name = Some col)
    names (map normalize cols).
Proof.
  assert (Hin : Forall (fun name => name ∈ names) names)
    by (apply Forall_forall; auto).
  revert Hin. generalize names at 2 3 5 as names'.
  intros names' Hin Hcols.
  induction Hcols as [|name col names' cols Hcol _ IH]; simpl; constructor.
  - inversion Hin; subst. now apply prepared_lookup_presence.
  - apply IH. now inversion Hin.
Qed.

Lemma prepared_lookup_counts (df : DataFrame) (e s : Series) :
  let df' := prepared float_repr parse_number names entra_col sophos_col df e s in
  df_cols df' !! entra_col = Some (coerce e)
  /\ df_cols df' !! sophos_col = Some (coerce s)
  /\ df_len df' = df_len df.
Proof.
  unfold prepared. repeat split.
  - rewrite df_assign_lookup_ne by congruence. apply df_assign_lookup_eq.
  - apply df_assign_lookup_eq.
Qed.

End Prepare.

Lemma count_all_5_contexts_run (df : DataFrame) (cols : list Series)
    (e s : Series) :
  Forall2 (fun name col => df_cols df !! name = Some col) PRESENCE_BOOL_COLS cols ->
  df_cols df !! ENTRA_COUNT = Some e ->
  df_cols df !! SOPHOS_COUNT = Some s ->
  let mask := all_axis1 (df_len df) (map normalize cols) in
  count_all_5_contexts float_repr parse_number df
  = (adjust_count_for_duplicates (inject_Z (Z.of_nat (mask_count mask)))
       (select_rows mask (coerce e)) (select_rows mask (coerce s)),
     prepared float_repr parse_number
       PRESENCE_BOOL_COLS ENTRA_COUNT SOPHOS_COUNT df e s).
Proof.
  intros Hcols He Hs mask. unfold count_all_5_contexts.
  destruct presence_not_counts as (HE & HS & Hnd).
  assert (Hne : ENTRA_COUNT <> SOPHOS_COUNT) by discriminate.
  rewrite (prepare_run _ _ _ HE HS Hne df cols e s Hcols He Hs).
  unfold count_rows_in_all.
  rewrite (table_bind_ok _ _ _ _ _
             (get_columns_ok _ _ _
                (prepared_presence _ _ _ Hnd HE HS df cols e s Hcols))).
  unfold table_bind at 1, get_len.
  destruct (prepared_lookup_counts PRESENCE_BOOL_COLS _ _ Hne df e s)
    as (HeP & HsP & HlenP).
  rewrite HlenP. fold mask. f_equal.
  unfold df_column, df_filter. cbn [df_cols df_len].
  rewrite !lookup_fmap, HeP, HsP. reflexivity.
Qed.

Lemma normalized_rows (n : nat) (cols : list Series) :
  Forall (fun col => length col = n) cols ->
  all_axis1 n (map normalize cols)
    = rows_in_all n (map (map (normalize_bool float_repr)) cols).
Proof.
  intros Hlen. rewrite all_axis1_rows.
  - f_equal. rewrite map_map. apply map_ext. intros col.
    apply normalize_bool_column_py_bool.
  - apply Forall_map. eapply Forall_impl; [exact Hlen|].
    intros col Hcol. simpl. now rewrite normalize_bool_column_length.
Qed.

Lemma rows_in_all_length (n : nat) (flags : list (list bool)) :
  length (rows_in_all n flags) = n.
Proof. unfold rows_in_all. now rewrite length_map, length_seq. Qed.

Lemma has_columns_split (df : DataFrame) (names : list string)
    (cols : list Series) :
  Forall2 (has_column df) names cols ->
  Forall2 (fun name col => df_cols df !! name = Some col) names cols
  /\ Forall (fun col => length col = df_len df) cols.
Proof.
  induction 1 as [|name col names cols [Hcol Hlen] _ [IH1 IH2]]; split;
    constructor; assumption.
Qed.

(** C5.  [count_all_5_contexts] returns [adjust_count_for_duplicates] of
    the rows whose five normalized presence flags are all true: the base
    count is the number of those rows and the two series are the coerced
    instance counts of those same rows, one per row.  What is not a
    number in an instance-count column counts as 0 and raises nothing; a
    count is returned when the coerced counts of those rows are in the
    range where the sums of pandas are exact, which no infinity is in. *)
Theorem count_all_5_contexts_subset (df : DataFrame) (cols : list Series)
    (e s : Series) :
  Forall2 (has_column df) PRESENCE_BOOL_COLS cols ->
  has_column df ENTRA_COUNT e ->
  has_column df SOPHOS_COUNT s ->
  let mask :=
    rows_in_all (df_len df) (map (map (normalize_bool float_repr)) cols) in
  let subset_entra := select_rows mask (coerce e) in
  let subset_sophos := select_rows mask (coerce s) in
  fst (count_all_5_contexts float_repr parse_number df)
    = adjust_count_for_duplicates (inject_Z (Z.of_nat (mask_count mask)))
        subset_entra subset_sophos
  /\ (forall k, exact_counts k (subset_entra ++ subset_sophos) = true ->
        exists n, fst (count_all_5_contexts float_repr parse_number df) = Ok n)
  /\ length subset_entra = mask_count mask
  /\ length subset_sophos = mask_count mask
  /\ coerce [CNone; CNaN] = [CFloat 0; CFloat 0]
  /\ (forall text,
        coerce [CStr text] = [CFloat (default 0%Q (parse_number text))]).
Proof.
  intros Hcols [He Hle] [Hs Hls] mask subset_entra subset_sophos.
  apply has_columns_split in Hcols as [Hcols Hlen].
  rewrite (count_all_5_contexts_run df cols e s Hcols He Hs).
  cbn [fst]. rewrite (normalized_rows _ _ Hlen). fold mask.
  split; [reflexivity|]. split.
  - intros k _. eexists. apply adjust_count_coerced.
  - repeat split.
    + apply select_rows_length. subst mask.
      now rewrite coerce_length, rows_in_all_length.
    + apply select_rows_length. subst mask.
      now rewrite coerce_length, rows_in_all_length.
Qed.

Lemma series_gt_0_coerced (col : Series) :
  series_gt_0 (coerce col)
  = Ok (map (fun c => negb (Qle_bool (default 0%Q (to_numeric parse_number c)) 0)) col).
Proof.
  unfold to_numeric_fillna, fillna_0. rewrite !map_map.
  induction col as [|c col IH]; simpl; [reflexivity|].
  now rewrite IH.
Qed.

Lemma flagged_booleans (col : Series) :
  dtype_is_bool col = true -> map py_bool col = map (flagged parse_number) col.
Proof.
  unfold dtype_is_bool. induction col as [|c col IH]; simpl; [reflexivity|].
  intros H. apply andb_prop in H as [Hc Hcol].
  destruct c; try discriminate. simpl. f_equal. now apply IH.
Qed.

Lemma flagged_numbers (c : cell) :
  negb (Qle_bool (default 0%Q (to_numeric parse_number c)) 0)
    = flagged parse_number c.
Proof. destruct c as [| | |[|]| |]; reflexivity. Qed.

(** The two branches of [count_multi_instance_devices] agree on a column
    of booleans, so reading the dtype off the cells loses nothing. *)
Lemma multi_instance_branches_agree (col : Series) :
  dtype_is_bool col = true ->
  series_gt_0 (coerce col) = Ok (map py_bool col).
Proof.
  intros H. rewrite series_gt_0_coerced, (flagged_booleans _ H).
  f_equal. apply map_ext. apply flagged_numbers.
Qed.

(** C7.  [count_multi_instance_devices] raises nothing and returns 0
    when the table has no multi-instance column, and otherwise the number
    of rows whose indicator is the boolean True or, as a number after
    coercion, strictly greater than zero; on a column of booleans that
    is the number of True cells. *)
Theorem count_multi_instance_devices_flagged (df : DataFrame) :
  fst (count_multi_instance_devices parse_number df)
    = Ok (multi_instance_rows parse_number df)
  /\ (forall len, multi_instance_rows parse_number (mkDataFrame len ∅) = 0)
  /\ (forall len cols flags,
        multi_instance_rows parse_number
          (mkDataFrame len (<[MULTI_INSTANCE_COL := map CBool flags]> cols))
        = Z.of_nat (mask_count flags)).
Proof.
  split; [|split].
  - unfold count_multi_instance_devices, multi_instance_rows.
    destruct (df_cols df !! MULTI_INSTANCE_COL) as [col|] eqn:Hcol;
      [|reflexivity].
    rewrite (table_bind_ok _ _ _ _ _ (get_column_ok _ _ _ Hcol)).
    destruct (dtype_is_bool col) eqn:Hdtype.
    + unfold table_ret. cbn [fst]. now rewrite (flagged_booleans _ Hdtype).
    + unfold table_bind, lift_result, table_ret.
      rewrite series_gt_0_coerced. cbn [fst].
      do 3 f_equal. apply map_ext. apply flagged_numbers.
  - intros len. unfold multi_instance_rows. cbn [df_cols].
    now rewrite lookup_empty.
  - intros len cols flags. unfold multi_instance_rows. cbn [df_cols].
    rewrite lookup_insert_eq. rewrite map_map. simpl. now rewrite map_id.
Qed.

Lemma count_multi_instance_devices_pure (df : DataFrame) :
  snd (count_multi_instance_devices parse_number df) = df.
Proof.
  unfold count_multi_instance_devices.
  destruct (df_cols df !! MULTI_INSTANCE_COL) as [col|] eqn:Hcol;
    [|reflexivity].
  rewrite (table_bind_ok _ _ _ _ _ (get_column_ok _ _ _ Hcol)).
  destruct (dtype_is_bool col); [reflexivity|].
  unfold table_bind, lift_result, table_ret.
  now rewrite series_gt_0_coerced.
Qed.

(** C10.  On a table that has the columns they read,
    [count_total_devices] replaces the two instance-count columns by
    their coerced versions, [count_all_5_contexts] does the same and
    replaces the five presence columns by their normalized booleans, every
    other column and the number of rows staying as they were; and
    [count_multi_instance_devices] leaves any table as it is. *)
Theorem counting_functions_frame (df : DataFrame) (cols : list Series)
    (e s : Series) :
  Forall2 (fun name col => df_cols df !! name = Some col) PRESENCE_BOOL_COLS cols ->
  df_cols df !! ENTRA_COUNT = Some e ->
  df_cols df !! SOPHOS_COUNT = Some s ->
  let after_total := snd (count_total_devices parse_number df) in
  let after_all_5 := snd (count_all_5_contexts float_repr parse_number df) in
  (df_len after_total = df_len df
   /\ forall name,
       df_cols after_total !! name
       = if decide (name ∈ [ENTRA_COUNT; SOPHOS_COUNT])
         then coerce <$> df_cols df !! name
         else df_cols df !! name)
  /\ (df_len after_all_5 = df_len df
      /\ forall name,
          df_cols after_all_5 !! name
          = if decide (name ∈ PRESENCE_BOOL_COLS)
            then normalize <$> df_cols df !! name
            else if decide (name ∈ [ENTRA_COUNT; SOPHOS_COUNT])
                 then coerce <$> df_cols df !! name
                 else df_cols df !! name)
  /\ (forall table, snd (count_multi_instance_devices parse_number table) = table).
Proof.
  intros Hcols He Hs after_total after_all_5.
  destruct presence_not_counts as (HE & HS & Hnd).
  subst after_total after_all_5.
  rewrite (count_total_devices_run df e s He Hs).
  rewrite (count_all_5_contexts_run df cols e s Hcols He Hs).
  cbn [snd]. split; [|split].
  - split; [reflexivity|]. intros name.
    destruct (decide (name = SOPHOS_COUNT)) as [->|HnS].
    { rewrite df_assign_lookup_eq, decide_True by set_solver. now rewrite Hs. }
    rewrite df_assign_lookup_ne by congruence.
    destruct (decide (name = ENTRA_COUNT)) as [->|HnE].
    { rewrite df_assign_lookup_eq, decide_True by set_solver. now rewrite He. }
    rewrite df_assign_lookup_ne by congruence.
    rewrite decide_False by now apply not_in_counts. reflexivity.
  - split; [reflexivity|]. intros name. unfold prepared.
    destruct (decide (name = SOPHOS_COUNT)) as [->|HnS].
    { rewrite df_assign_lookup_eq, decide_False, decide_True by set_solver.
      now rewrite Hs. }
    rewrite df_assign_lookup_ne by congruence.
    destruct (decide (name = ENTRA_COUNT)) as [->|HnE].
    { rewrite df_assign_lookup_eq, decide_False, decide_True by set_solver.
      now rewrite He. }
    rewrite df_assign_lookup_ne by congruence.
    destruct (decide (name ∈ PRESENCE_BOOL_COLS)) as [Hin|Hout].
    + apply (df_alter_lookup _ _ _ _ Hnd Hin).
    + rewrite (df_alter_lookup_ne _ _ _ _ Hout).
      rewrite decide_False by now apply not_in_counts. reflexivity.
  - apply count_multi_instance_devices_pure.
Qed.

(** *** The overlap heatmap *)

Lemma renamed_not_counts :
  (ENTRA_COUNT_RENAMED ∉ PRESENCE_BOOL_COLS_RENAMED)
  /\ (SOPHOS_COUNT_RENAMED ∉ PRESENCE_BOOL_COLS_RENAMED)
  /\ NoDup PRESENCE_BOOL_COLS_RENAMED.
Proof.
  unfold ENTRA_COUNT_RENAMED, SOPHOS_COUNT_RENAMED, PRESENCE_BOOL_COLS_RENAMED.
  split; [|split].
  - rewrite !not_elem_of_cons. repeat split; try discriminate. apply not_elem_of_nil.
  - rewrite !not_elem_of_cons. repeat split; try discriminate. apply not_elem_of_nil.
  - repeat (apply NoDup_cons; split;
            [rewrite ?not_elem_of_cons; repeat split; try discriminate;
             apply not_elem_of_nil|]).
    apply NoDup_nil_2.
Qed.

Lemma extra_instances_selected (mask : list bool) (counts : list Q) :
  exists x, extra_instances (select_rows mask (map CFloat counts)) = Ok x
            /\ (x == clipped_extras (select_rows mask counts))%Q.
Proof.
  rewrite select_rows_map.
  destruct (extra_instances_floats (select_rows mask counts)) as (x & Hx & Heq & _).
  eauto.
Qed.

Lemma heatmap_cell_ok (df_view df : DataFrame) (i j : string)
    (ci cj : Series) (entra sophos : list Q) :
  df_cols df_view !! i = Some ci ->
  df_cols df_view !! j = Some cj ->
  df_cols df !! ENTRA_COUNT = Some (map CFloat entra) ->
  df_cols df !! SOPHOS_COUNT = Some (map CFloat sophos) ->
  heatmap_cell df_view df i j
  = Ok (overlap_count (map py_bool ci) (map py_bool cj)
          (involves "In Entra" i j) (involves "In Sophos" i j) entra sophos).
Proof.
  intros Hi Hj He Hs. unfold heatmap_cell, df_column, overlap_count, involves.
  rewrite Hi, Hj, He, Hs. cbn [result_bind]. fold (overlap_mask ci cj).
  destruct (extra_instances_selected (overlap_mask ci cj) entra) as (xe & Hxe & Heq).
  destruct (extra_instances_selected (overlap_mask ci cj) sophos) as (xs & Hxs & Hsq).
  destruct (String.eqb i "In Entra" || String.eqb j "In Entra");
    destruct (String.eqb i "In Sophos" || String.eqb j "In Sophos");
    cbn [result_bind]; rewrite ?Hxe, ?Hxs; cbn [result_bind];
    f_equal; now rewrite ?Heq, ?Hsq.
Qed.

Lemma heatmap_matrix_run (df df_view : DataFrame) (cols : list Series)
    (view_entra view_sophos : Series) (entra sophos : list Q) :
  Forall2 (fun name col => df_cols df_view !! name = Some col)
    PRESENCE_BOOL_COLS_RENAMED cols ->
  df_cols df_view !! ENTRA_COUNT_RENAMED = Some view_entra ->
  df_cols df_view !! SOPHOS_COUNT_RENAMED = Some view_sophos ->
  df_cols df !! ENTRA_COUNT = Some (map CFloat entra) ->
  df_cols df !! SOPHOS_COUNT = Some (map CFloat sophos) ->
  fst (heatmap_matrix float_repr parse_number df df_view)
  = Ok (foldl (fun m pair => <[pair := overlap_at float_repr df_view entra sophos pair]> m)
          (zero_matrix PRESENCE_BOOL_COLS_RENAMED)
          (list_prod PRESENCE_BOOL_COLS_RENAMED PRESENCE_BOOL_COLS_RENAMED)).
Proof.
  intros Hcols Hve Hvs He Hs. unfold heatmap_matrix.
  destruct renamed_not_counts as (HE & HS & Hnd).
  assert (Hne : ENTRA_COUNT_RENAMED <> SOPHOS_COUNT_RENAMED) by discriminate.
  rewrite (prepare_run _ _ _ HE HS Hne df_view cols _ _ Hcols Hve Hvs).
  cbn [fst]. unfold heatmap_loops.
  rewrite <- foldl_list_prod.
  apply for_each_ok. intros matrix i Hi.
  apply for_each_ok. intros matrix' j Hj.
  assert (Hsome : forall label, label ∈ PRESENCE_BOOL_COLS_RENAMED ->
                    exists col, df_cols df_view !! label = Some col).
  { apply Forall_forall. eapply Forall2_Forall_l; [exact Hcols|].
    apply Forall_forall. intros col _ name Hname. simpl in Hname. eauto. }
  destruct (Hsome i Hi) as [ci Hci]. destruct (Hsome j Hj) as [cj Hcj].
  rewrite (heatmap_cell_ok _ df i j (normalize ci) (normalize cj) entra sophos);
    try assumption;
    try (apply prepared_lookup_presence; assumption).
  cbn [result_bind]. do 2 f_equal.
  unfold overlap_at, presence_flags. cbn [fst snd].
  rewrite Hci, Hcj. cbn [default].
  now rewrite !normalize_bool_column_py_bool.
Qed.

Lemma zip_with_andb_comm (xs ys : list bool) :
  zip_with andb xs ys = zip_with andb ys xs.
Proof.
  revert ys. induction xs as [|x xs IH]; intros [|y ys]; simpl; try reflexivity.
  now rewrite IH, andb_comm.
Qed.

Lemma overlap_at_sym (df_view : DataFrame) (entra sophos : list Q)
    (i j : string) :
  overlap_at float_repr df_view entra sophos (i, j)
    = overlap_at float_repr df_view entra sophos (j, i).
Proof.
  unfold overlap_at, overlap_count, involves. cbn [fst snd].
  rewrite (zip_with_andb_comm (presence_flags float_repr df_view i)).
  rewrite (orb_comm (String.eqb i "In Entra")).
  rewrite (orb_comm (String.eqb i "In Sophos")).
  reflexivity.
Qed.

Lemma elem_of_list_prod_pair (labels : list string) (i j : string) :
  (i, j) ∈ list_prod labels labels <-> i ∈ labels /\ j ∈ labels.
Proof. rewrite !list_elem_of_In. apply in_prod_iff. Qed.

Lemma zero_matrix_lookup_None (labels : list string) (i j : string) :
  ~ (i ∈ labels /\ j ∈ labels) -> zero_matrix labels !! (i, j) = None.
Proof.
  intros Hout. unfold zero_matrix. apply not_elem_of_list_to_map_1.
  assert (E : forall pairs : list (string * string),
               fst <$> map (fun ij => (ij, 0)) pairs = pairs)
    by (induction pairs as [|pair pairs IH]; simpl; [|f_equal; exact IH];
        reflexivity).
  rewrite E. now rewrite elem_of_list_prod_pair.
Qed.

(** Every cell of the matrix the loops leave behind. *)
Lemma heatmap_filled_lookup (df_view : DataFrame) (entra sophos : list Q)
    (labels : list string) (i j : string) :
  foldl (fun m pair => <[pair := overlap_at float_repr df_view entra sophos pair]> m)
    (zero_matrix labels) (list_prod labels labels) !! (i, j)
  = if decide (i ∈ labels /\ j ∈ labels)
    then Some (overlap_at float_repr df_view entra sophos (i, j))
    else None.
Proof.
  destruct (decide (i ∈ labels /\ j ∈ labels)) as [Hin|Hout].
  - apply (foldl_insert_lookup (fun pair => pair)
             (overlap_at float_repr df_view entra sophos)).
    + now intros pair _ ->.
    + right. exists (i, j). split; [|reflexivity].
      now apply elem_of_list_prod_pair.
  - rewrite (foldl_insert_lookup_ne (fun pair => pair)
               (overlap_at float_repr df_view entra sophos)).
    + now apply zero_matrix_lookup_None.
    + intros pair Hpair ->. apply Hout. now apply elem_of_list_prod_pair.
Qed.

(** C3.  For every ordered pair [(i, j)] of the five presence labels,
    self-pairs included, the cell of the heatmap is the number of rows
    where both normalized flags are true, plus the Entra extras of those
    rows only when [i] or [j] is "In Entra", plus the Sophos extras of
    those rows only when [i] or [j] is "In Sophos", as an integer.  The
    counts are taken in the range where the sums of pandas are exact:
    whole numbers that, with one more for each cell of the flag and count
    columns read, add up to at most [2^53] in absolute value. *)
Theorem heatmap_matrix_cells (df df_view : DataFrame) (cols : list Series)
    (view_entra view_sophos : Series) (entra sophos : list Q) :
  Forall2 (fun name col => df_cols df_view !! name = Some col)
    PRESENCE_BOOL_COLS_RENAMED cols ->
  df_cols df_view !! ENTRA_COUNT_RENAMED = Some view_entra ->
  df_cols df_view !! SOPHOS_COUNT_RENAMED = Some view_sophos ->
  df_cols df !! ENTRA_COUNT = Some (map CFloat entra) ->
  df_cols df !! SOPHOS_COUNT = Some (map CFloat sophos) ->
  exact_counts 0 (concat cols ++ map CFloat entra ++ map CFloat sophos) = true ->
  exists matrix,
    fst (heatmap_matrix float_repr parse_number df df_view) = Ok matrix
    /\ forall i j,
        i ∈ PRESENCE_BOOL_COLS_RENAMED -> j ∈ PRESENCE_BOOL_COLS_RENAMED ->
        matrix !! (i, j)
        = Some (overlap_count
                  (presence_flags float_repr df_view i)
                  (presence_flags float_repr df_view j)
                  (involves "In Entra" i j) (involves "In Sophos" i j)
                  entra sophos).
Proof.
  intros Hcols Hve Hvs He Hs _. eexists. split.
  - exact (heatmap_matrix_run df df_view cols _ _ entra sophos Hcols Hve Hvs He Hs).
  - intros i j Hi Hj. rewrite heatmap_filled_lookup.
    now rewrite decide_True by (split; assumption).
Qed.

(** C4.  The heatmap is symmetric: the cell of [(i, j)] is the cell of
    [(j, i)], and every pair of presence labels has a cell. *)
Theorem heatmap_matrix_symmetric (df df_view : DataFrame) (cols : list Series)
    (view_entra view_sophos : Series) (entra sophos : list Q) :
  Forall2 (fun name col => df_cols df_view !! name = Some col)
    PRESENCE_BOOL_COLS_RENAMED cols ->
  df_cols df_view !! ENTRA_COUNT_RENAMED = Some view_entra ->
  df_cols df_view !! SOPHOS_COUNT_RENAMED = Some view_sophos ->
  df_cols df !! ENTRA_COUNT = Some (map CFloat entra) ->
  df_cols df !! SOPHOS_COUNT = Some (map CFloat sophos) ->
  exists matrix,
    fst (heatmap_matrix float_repr parse_number df df_view) = Ok matrix
    /\ (forall i j, matrix !! (i, j) = matrix !! (j, i))
    /\ (forall i j,
          i ∈ PRESENCE_BOOL_COLS_RENAMED -> j ∈ PRESENCE_BOOL_COLS_RENAMED ->
          is_Some (matrix !! (i, j))).
Proof.
  intros Hcols Hve Hvs He Hs. eexists. split; [|split].
  - exact (heatmap_matrix_run df df_view cols _ _ entra sophos Hcols Hve Hvs He Hs).
  - intros i j. rewrite !heatmap_filled_lookup.
    destruct (decide (i ∈ PRESENCE_BOOL_COLS_RENAMED /\ j ∈ PRESENCE_BOOL_COLS_RENAMED))
      as [[Hi Hj]|Hout].
    + rewrite decide_True by (split; assumption). f_equal. apply overlap_at_sym.
    + rewrite decide_False by (intros [Hj Hi]; apply Hout; split; assumption).
      reflexivity.
  - intros i j Hi Hj. rewrite heatmap_filled_lookup.
    rewrite decide_True by (split; assumption). eauto.
Qed.

(** *** The context-cardinality distribution *)

Lemma elem_of_sorted_unique (k : Z) (present : list Z) :
  k ∈ merge_sort Z.le (remove_dups present) <-> k ∈ present.
Proof. now rewrite merge_sort_Permutation, elem_of_remove_dups. Qed.

Lemma adjusted_counts_run (df : DataFrame) (cols : list Series) (e s : Series) :
  Forall2 (fun name col => df_cols df !! name = Some col) PRESENCE_BOOL_COLS cols ->
  df_cols df !! ENTRA_COUNT = Some e ->
  df_cols df !! SOPHOS_COUNT = Some s ->
  let present := sum_axis1 (df_len df) (map normalize cols) in
  forall bucket_value : Z -> Z,
    (forall k,
        adjust_count_for_duplicates
          (inject_Z (Z.of_nat (mask_count (map (Z.eqb k) present))))
          (select_rows (map (Z.eqb k) present) (coerce e))
          (select_rows (map (Z.eqb k) present) (coerce s))
        = Ok (bucket_value k)) ->
    fst (adjusted_counts float_repr parse_number df)
    = Ok (foldl (fun counts k => <[k := bucket_value k]> counts) ∅
            (merge_sort Z.le (remove_dups present))).
Proof.
  intros Hcols He Hs present bucket_value Hvalue. unfold adjusted_counts.
  destruct presence_not_counts as (HE & HS & Hnd).
  assert (Hne : ENTRA_COUNT <> SOPHOS_COUNT) by discriminate.
  rewrite (prepare_run _ _ _ HE HS Hne df cols e s Hcols He Hs).
  rewrite (table_bind_ok _ _ _ _ _
             (get_columns_ok _ _ _
                (prepared_presence _ _ _ Hnd HE HS df cols e s Hcols))).
  unfold table_bind at 1, get_len.
  destruct (prepared_lookup_counts PRESENCE_BOOL_COLS _ _ Hne df e s)
    as (HeP & HsP & HlenP).
  rewrite HlenP. fold present.
  unfold table_bind, set_column. cbn [fst].
  apply for_each_ok. intros counts k _.
  unfold bucket_count, df_column.
  rewrite !df_assign_lookup_ne by discriminate.
  rewrite HeP, HsP. cbn [result_bind].
  now rewrite Hvalue.
Qed.

Lemma row_cardinality_bounds (n : nat) (flags : list (list bool)) (k : Z) :
  k ∈ row_cardinality n flags -> 0 <= k <= Z.of_nat (length flags).
Proof.
  unfold row_cardinality. rewrite list_elem_of_In, in_map_iff.
  intros (r & <- & _).
  pose proof (length_filter (fun col : list bool => col !! r = Some true) flags).
  lia.
Qed.

(** C6.  The distribution groups the rows by the number of their five
    normalized presence flags that are true.  Each cardinality that
    occurs, always between 0 and 5, is a key of the mapping, and its
    value is [adjust_count_for_duplicates] of its bucket: the number of
    rows of that cardinality and the coerced instance counts of those
    rows.  A cardinality that does not occur is no key. *)
Theorem adjusted_counts_buckets (df : DataFrame) (cols : list Series)
    (e s : Series) :
  Forall2 (has_column df) PRESENCE_BOOL_COLS cols ->
  df_cols df !! ENTRA_COUNT = Some e ->
  df_cols df !! SOPHOS_COUNT = Some s ->
  let cardinality :=
    row_cardinality (df_len df) (map (map (normalize_bool float_repr)) cols) in
  exists counts,
    fst (adjusted_counts float_repr parse_number df) = Ok counts
    /\ (forall k, k ∈ cardinality ->
          let bucket := map (Z.eqb k) cardinality in
          exists adjusted,
            adjust_count_for_duplicates (inject_Z (Z.of_nat (mask_count bucket)))
              (select_rows bucket (coerce e)) (select_rows bucket (coerce s))
            = Ok adjusted
            /\ counts !! k = Some adjusted)
    /\ (forall k, k ∉ cardinality -> counts !! k = None)
    /\ (forall k, k ∈ cardinality -> 0 <= k <= 5).
Proof.
  intros Hcols He Hs cardinality.
  apply has_columns_split in Hcols as [Hcols Hlen].
  assert (Hpresent : sum_axis1 (df_len df) (map normalize cols) = cardinality).
  { rewrite sum_axis1_rows.
    - subst cardinality. f_equal. rewrite map_map. apply map_ext. intros col.
      apply normalize_bool_column_py_bool.
    - apply Forall_map. eapply Forall_impl; [exact Hlen|].
      intros col Hcol. simpl. now rewrite normalize_bool_column_length. }
  eexists. split; [|split; [|split]].
  - apply (adjusted_counts_run df cols e s Hcols He Hs).
    intros k. rewrite Hpresent. apply adjust_count_coerced.
  - intros k Hk bucket. eexists. split; [apply adjust_count_coerced|].
    rewrite Hpresent.
    apply (foldl_insert_lookup (fun k => k)).
    + now intros k' _ ->.
    + right. exists k. split; [|reflexivity].
      exact (proj2 (elem_of_sorted_unique _ _) Hk).
  - intros k Hk. rewrite Hpresent.
    etransitivity; [|apply (lookup_empty (M := gmap Z))].
    apply (foldl_insert_lookup_ne (fun k => k)).
    intros k' Hk' Heq. apply Hk. rewrite <- Heq.
    exact (proj1 (elem_of_sorted_unique _ _) Hk').
  - intros k Hk. subst cardinality.
    apply row_cardinality_bounds in Hk. rewrite length_map in Hk.
    apply Forall2_length in Hcols. rewrite <- Hcols in Hk. exact Hk.
Qed.

End AggregationFacts.

(** * The model at work *)

(** The scenarios of the specification and of the repository's tests. *)
Example scenario_entra_duplicates :
  adjust_count_for_duplicates 10
    (map CInt [2; 2; 3; 1]) (map CInt [1; 1; 1; 1]) = Ok 14.
Proof. reflexivity. Qed.

Example scenario_fifty_devices :
  adjust_count_for_duplicates 50
    (map CInt (replicate 45 1 ++ replicate 3 2 ++ replicate 2 3))
    (map CInt (replicate 48 1 ++ replicate 2 2)) = Ok 59.
Proof. vm_compute. reflexivity. Qed.

Example scenario_negative_clipped :
  adjust_count_for_duplicates 10
    [CInt 0; CInt (-1); CFloat 0.5] (map CInt [1; 1; 1]) = Ok 10.
Proof. vm_compute. reflexivity. Qed.

(** A [None] in a column of objects is a missing value, not an error. *)
Example scenario_none_is_missing :
  adjust_count_for_duplicates 10 [CInt 2; CNone] [] = Ok 11.
Proof. vm_compute. reflexivity. Qed.

Example sample_total :
  fst (count_total_devices Sample.parse_number Sample.devices) = Ok 11.
Proof. vm_compute. reflexivity. Qed.

Example sample_multi_instance :
  fst (count_multi_instance_devices Sample.parse_number Sample.devices) = Ok 2.
Proof. vm_compute. reflexivity. Qed.

(** C1 on the first duplicate scenario of the tests: ten devices, four
    extra instances in Entra. *)
Lemma adjust_count_for_duplicates_ints_witness :
  adjust_count_for_duplicates 10
    (map CInt [2; 2; 3; 1]) (map CInt [1; 1; 1; 1]) = Ok 14.
Proof.
  apply (proj1 (adjust_count_for_duplicates_ints 10 [2; 2; 3; 1] [1; 1; 1; 1]
                  eq_refl)).
Defined.

(** C8 on halves: a negative count, a half and a count of one add nothing,
    one and a half adds a half, two and a half adds one and a half. *)
Lemma adjust_count_for_duplicates_clips_witness :
  adjust_count_for_duplicates 10
    (map CFloat [1.5; -3; 0.5]%Q) (map CFloat [2.5; 1]%Q) = Ok 12
  /\ 10 <= 12.
Proof.
  pose proof (adjust_count_for_duplicates_clips 1 10 [1.5; -3; 0.5]%Q [2.5; 1]%Q
                eq_refl) as [Hvalue [Hbase _]].
  split; [exact Hvalue|exact Hbase].
Defined.

(** C5 on the sample table: three of the four devices are in all five
    contexts, and a count is returned. *)
Lemma count_all_5_contexts_subset_witness :
  fst (count_all_5_contexts Sample.float_repr Sample.parse_number Sample.devices)
  = adjust_count_for_duplicates 3
      [CFloat 3; CFloat 1; CFloat 2] [CFloat 2; CFloat 0; CFloat 4]
  /\ exists n,
      fst (count_all_5_contexts Sample.float_repr Sample.parse_number Sample.devices)
      = Ok n.
Proof.
  pose proof (count_all_5_contexts_subset
                Sample.float_repr Sample.parse_number Sample.devices
                Sample.presence Sample.entra_counts Sample.sophos_counts) as H.
  destruct H as [Hsubset [Hcount _]].
  - repeat constructor.
  - split; reflexivity.
  - split; reflexivity.
  - split; [exact Hsubset|]. apply (Hcount 0%nat). vm_compute. reflexivity.
Defined.

(** C10 on the sample table. *)
Lemma counting_functions_frame_witness :
  let after_total := snd (count_total_devices Sample.parse_number Sample.devices) in
  let after_all_5 :=
    snd (count_all_5_contexts Sample.float_repr Sample.parse_number Sample.devices) in
  df_cols after_total !! ENTRA_COUNT = Some (map CFloat [3; 1; 0; 2]%Q)
  /\ df_cols after_total !! "InSophos" = Some Sample.in_sophos
  /\ df_cols after_all_5 !! "InSophos" = Some (map CBool [true; true; false; true])
  /\ df_cols after_all_5 !! SOPHOS_COUNT = Some (map CFloat [2; 0; 1; 4]%Q)
  /\ df_cols after_all_5 !! "Name" = Some Sample.names.
Proof.
  intros after_total after_all_5.
  destruct (counting_functions_frame
              Sample.float_repr Sample.parse_number Sample.devices
              Sample.presence Sample.entra_counts Sample.sophos_counts)
    as ((_ & Htotal) & (_ & Hall) & _).
  - repeat constructor.
  - reflexivity.
  - reflexivity.
  - subst after_total after_all_5.
    rewrite !Htotal, !Hall. repeat split; vm_compute; reflexivity.
Defined.

(** C3 on the sample table, read by the loops after
    [count_total_devices]. *)
Lemma heatmap_matrix_cells_witness :
  exists matrix,
    fst (heatmap_matrix Sample.float_repr Sample.parse_number
           Sample.devices_counted Sample.devices_view) = Ok matrix
    /\ matrix !! ("In Entra", "In Sophos") = Some 10
    /\ matrix !! ("In AD", "In KACE") = Some 3.
Proof.
  destruct (heatmap_matrix_cells
              Sample.float_repr Sample.parse_number
              Sample.devices_counted Sample.devices_view
              Sample.presence Sample.entra_counts Sample.sophos_counts
              [3; 1; 0; 2]%Q [2; 0; 1; 4]%Q)
    as (matrix & Hrun & Hcells).
  - repeat constructor.
  - reflexivity.
  - reflexivity.
  - vm_compute. reflexivity.
  - vm_compute. reflexivity.
  - vm_compute. reflexivity.
  - exists matrix. split; [exact Hrun|]. split.
    + rewrite Hcells by repeat constructor. vm_compute. reflexivity.
    + rewrite Hcells by repeat constructor. vm_compute. reflexivity.
Defined.

(** C4 on the sample table. *)
Lemma heatmap_matrix_symmetric_witness :
  exists matrix,
    fst (heatmap_matrix Sample.float_repr Sample.parse_number
           Sample.devices_counted Sample.devices_view) = Ok matrix
    /\ matrix !! ("In Sophos", "In Intune") = matrix !! ("In Intune", "In Sophos").
Proof.
  destruct (heatmap_matrix_symmetric
              Sample.float_repr Sample.parse_number
              Sample.devices_counted Sample.devices_view
              Sample.presence Sample.entra_counts Sample.sophos_counts
              [3; 1; 0; 2]%Q [2; 0; 1; 4]%Q)
    as (matrix & Hrun & Hsym & _).
  - repeat constructor.
  - reflexivity.
  - reflexivity.
  - vm_compute. reflexivity.
  - vm_compute. reflexivity.
  - exists matrix. split; [exact Hrun|apply Hsym].
Defined.

(** C6 on the sample table: three devices in five contexts, one in
    none. *)
Lemma adjusted_counts_buckets_witness :
  exists counts,
    fst (adjusted_counts Sample.float_repr Sample.parse_number Sample.devices)
      = Ok counts
    /\ counts !! 5 = Some 10 /\ counts !! 0 = Some 1 /\ counts !! 3 = None.
Proof.
  destruct (adjusted_counts_buckets
              Sample.float_repr Sample.parse_number Sample.devices
              Sample.presence Sample.entra_counts Sample.sophos_counts)
    as (counts & Hrun & Hin & Hout & _).
  - repeat constructor.
  - reflexivity.
  - reflexivity.
  - exists counts. split; [exact Hrun|]. repeat split.
    + destruct (Hin 5) as (adjusted & Hadj & ->).
      * vm_compute. repeat constructor.
      * vm_compute in Hadj. congruence.
    + destruct (Hin 0) as (adjusted & Hadj & ->).
      * vm_compute. repeat constructor.
      * vm_compute in Hadj. congruence.
    + apply Hout. vm_compute. intros H.
      repeat (apply elem_of_cons in H as [H|H]; [discriminate|]).
      now apply elem_of_nil in H.
Defined.

(** * Properties of the rest of the script *)

(** ** Column names: [get_existing_columns], [df_view], the overview *)

Lemma dict_get_elem (d : pydict) (k v : string) :
  NoDup (map fst d) -> dict_get k d = Some v <-> (k, v) ∈ d.
Proof.
  induction d as [|[k' v'] d IH]; simpl; intros Hnd.
  - split; [discriminate|]. intros H. now apply elem_of_nil in H.
  - apply NoDup_cons in Hnd as [Hk' Hnd]. rewrite elem_of_cons.
    destruct (String.eqb_spec k k') as [->|Hne].
    + split.
      * intros [= ->]. now left.
      * intros [[= ->]|Hin]; [reflexivity|].
        exfalso. apply Hk'. apply list_elem_of_In, in_map_iff.
        exists (k', v). split; [reflexivity|]. now apply list_elem_of_In.
    + rewrite (IH Hnd). split; [now right|].
      intros [[= -> _]|Hin]; [contradiction|assumption].
Qed.

Lemma dict_get_None (d : pydict) (k : string) :
  dict_get k d = None <-> k ∉ map fst d.
Proof.
  induction d as [|[k' v'] d IH]; simpl.
  - split; [intros _; apply not_elem_of_nil|reflexivity].
  - rewrite not_elem_of_cons. destruct (String.eqb_spec k k') as [->|Hne].
    + split; [discriminate|]. now intros [H _].
    + rewrite IH. tauto.
Qed.

Lemma in_columns_spec (df : DataFrame) (actual : string) :
  in_columns df actual = true <-> is_Some (df_cols df !! actual).
Proof. unfold in_columns. now rewrite bool_decide_eq_true. Qed.

Lemma get_existing_columns_elem (mapping : pydict) (df : DataFrame)
    (actual : string) :
  actual ∈ get_existing_columns mapping df
  <-> actual ∈ map snd mapping /\ is_Some (df_cols df !! actual).
Proof.
  unfold get_existing_columns.
  rewrite !list_elem_of_In, !in_map_iff. split.
  - intros ([d a] & <- & Hin). apply filter_In in Hin as [Hin Hcol].
    split; [|now apply in_columns_spec]. now exists (d, a).
  - intros (([d a] & <- & Hin) & Hcol). exists (d, a). split; [reflexivity|].
    apply filter_In. split; [assumption|]. now apply in_columns_spec.
Qed.

Lemma get_existing_columns_sublist (mapping : pydict) (df : DataFrame) :
  sublist (get_existing_columns mapping df) (map snd mapping).
Proof.
  unfold get_existing_columns.
  induction mapping as [|[d a] mapping IH]; simpl; [constructor|].
  destruct (in_columns df a); simpl; now constructor.
Qed.

(** X1.  [get_existing_columns] returns the values of the mapping, in its
    order and each as often as the mapping has it, with those that are no
    columns of the table left out: the mapped column names that are
    columns of the table, and only those; it returns every mapped name
    exactly when every one is a column, and nothing, without an error, for
    an empty mapping or a table that has none of them. *)
Theorem get_existing_columns_exactly (mapping : pydict) (df : DataFrame) :
  get_existing_columns mapping df
    = List.filter (fun actual => bool_decide (is_Some (df_cols df !! actual)))
        (map snd mapping)
  /\ (forall actual,
      actual ∈ get_existing_columns mapping df
      <-> actual ∈ map snd mapping /\ is_Some (df_cols df !! actual))
  /\ sublist (get_existing_columns mapping df) (map snd mapping)
  /\ (get_existing_columns mapping df = map snd mapping
      <-> forall actual, actual ∈ map snd mapping -> is_Some (df_cols df !! actual))
  /\ (get_existing_columns mapping df = []
      <-> forall actual, actual ∈ map snd mapping -> df_cols df !! actual = None).
Proof.
  split.
  { unfold get_existing_columns, in_columns.
    induction mapping as [|[d a] mapping IH]; simpl; [reflexivity|].
    destruct (bool_decide _); simpl; now rewrite IH. }
  split; [apply get_existing_columns_elem|].
  split; [apply get_existing_columns_sublist|].
  unfold get_existing_columns. split.
  - induction mapping as [|[d a] mapping IH]; simpl.
    + split; [|reflexivity]. intros _ actual H. now apply elem_of_nil in H.
    + destruct (in_columns df a) eqn:Ha; simpl.
      * split.
        -- intros [= Heq]. intros actual [->|Hin]%elem_of_cons.
           ++ now apply in_columns_spec.
           ++ now apply IH.
        -- intros Hall. f_equal. apply IH. intros actual Hin. apply Hall.
           now apply list_elem_of_further.
      * split.
        -- intros Heq. exfalso.
           assert (Hlen : (length (map snd (List.filter
                     (fun item : string * string => in_columns df item.2) mapping))
                   <= length mapping)%nat)
             by (rewrite length_map; apply List.filter_length_le).
           rewrite Heq in Hlen. simpl in Hlen. rewrite length_map in Hlen. lia.
        -- intros Hall. exfalso.
           assert (Hsome : is_Some (df_cols df !! a))
             by (apply Hall, list_elem_of_here).
           apply in_columns_spec in Hsome. congruence.
  - induction mapping as [|[d a] mapping IH]; simpl.
    + split; [|reflexivity]. intros _ actual H. now apply elem_of_nil in H.
    + destruct (in_columns df a) eqn:Ha; simpl.
      * split; [discriminate|]. intros Hnone. exfalso.
        apply in_columns_spec in Ha as [col Hcol].
        rewrite (Hnone a) in Hcol by apply list_elem_of_here. discriminate.
      * rewrite IH. split.
        -- intros Hnone actual [->|Hin]%elem_of_cons; [|now apply Hnone].
           apply eq_None_not_Some. intros Hsome.
           apply in_columns_spec in Hsome. congruence.
        -- intros Hnone actual Hin. apply Hnone. now apply list_elem_of_further.
Qed.

Lemma loc_columns_existing (df : DataFrame) (names : list string) :
  Forall (fun name => is_Some (df_cols df !! name)) names ->
  exists cols,
    loc_columns df names = Ok cols
    /\ map fst cols = names
    /\ forall name col, (name, col) ∈ cols <-> name ∈ names /\ df_cols df !! name = Some col.
Proof.
  induction names as [|name names IH]; intros Hall.
  - exists []. split; [reflexivity|]. split; [reflexivity|].
    intros name col. split.
    + intros Hin. now apply elem_of_nil in Hin.
    + intros [Hin _]. now apply elem_of_nil in Hin.
  - apply Forall_cons in Hall as [[col Hcol] Hall].
    destruct (IH Hall) as (cols & Hrun & Hfst & Hin).
    simpl. unfold df_column. rewrite Hcol, Hrun. simpl.
    exists ((name, col) :: cols). split; [reflexivity|].
    split; [simpl; now rewrite Hfst|].
    intros name' col'. rewrite !elem_of_cons, Hin. split.
    + intros [[= -> ->]|[Hn Hc]]; [split; [now left|assumption]|].
      split; [now right|assumption].
    + intros [[->|Hn] Hc].
      * left. rewrite Hcol in Hc. now injection Hc as ->.
      * right. now split.
Qed.

(** The display names of the data table are distinct, and so are the
    columns they stand for: renaming gives no label twice. *)
Lemma data_table_names_distinct :
  NoDup (map fst data_table_display_to_actual)
  /\ NoDup (map snd data_table_display_to_actual)
  /\ dict_inverse data_table_display_to_actual
     = map (fun item => (item.2, item.1)) data_table_display_to_actual.
Proof.
  split; [|split]; [| |vm_compute; reflexivity];
    apply (bool_decide_unpack _); vm_compute; exact I.
Qed.

Lemma dict_get_swapped (d : pydict) (a k : string) :
  NoDup (map snd d) ->
  dict_get a (map (fun item => (item.2, item.1)) d) = Some k <-> (k, a) ∈ d.
Proof.
  intros Hnd. rewrite dict_get_elem.
  - rewrite !list_elem_of_In, in_map_iff. split.
    + intros ([k' a'] & [= -> ->] & Hin). exact Hin.
    + intros Hin. now exists (k, a).
  - rewrite map_map. simpl. exact Hnd.
Qed.

Lemma renamed_selection_lookup (mapping : pydict) (df : DataFrame)
    (cols : list (string * Series)) (display : string) :
  NoDup (map fst mapping) ->
  NoDup (map snd mapping) ->
  map fst cols = get_existing_columns mapping df ->
  (forall name col,
      (name, col) ∈ cols
      <-> name ∈ get_existing_columns mapping df /\ df_cols df !! name = Some col) ->
  (list_to_map
     (map (fun item : string * Series =>
             (default item.1
                (dict_get item.1 (map (fun item => (item.2, item.1)) mapping)),
              item.2))
          (map_to_list (list_to_map cols : gmap string Series)))
   : gmap string Series) !! display
  = match dict_get display mapping with
    | Some actual => df_cols df !! actual
    | None => None
    end.
Proof.
  intros Hkeys Hvals Hfst Hcols.
  set (selected := (list_to_map cols : gmap string Series)).
  set (rename := fun item : string * Series =>
         (default item.1 (dict_get item.1 (map (fun item => (item.2, item.1)) mapping)),
          item.2)).
  (* what is selected, and how it is renamed *)
  assert (Hsel : forall actual col,
             (actual, col) ∈ map_to_list selected
             <-> actual ∈ map snd mapping /\ df_cols df !! actual = Some col).
  { intros actual col. rewrite elem_of_map_to_list. subst selected.
    rewrite <- elem_of_list_to_map.
    - rewrite Hcols, get_existing_columns_elem. split.
      + intros [[Hin _] Hcol]. now split.
      + intros [Hin Hcol]. repeat split; eauto.
    - change (NoDup (map fst cols)). rewrite Hfst.
      apply sublist_NoDup with (map snd mapping); [exact Hvals|].
      apply get_existing_columns_sublist. }
  assert (Hren : forall actual col d,
             (actual, col) ∈ map_to_list selected ->
             (rename (actual, col) = (d, col) <-> (d, actual) ∈ mapping)).
  { intros actual col d Hin. apply Hsel in Hin as [Hin _].
    apply list_elem_of_In, in_map_iff in Hin as ([d' a'] & Ha & Hin).
    simpl in Ha. subst a'. apply list_elem_of_In in Hin.
    unfold rename. cbn [fst snd].
    rewrite (proj2 (dict_get_swapped mapping actual d' Hvals) Hin). cbn [default].
    split.
    - now intros [= ->].
    - intros Hd.
      pose proof (proj2 (dict_get_swapped mapping actual d Hvals) Hd) as Hd1.
      pose proof (proj2 (dict_get_swapped mapping actual d' Hvals) Hin) as Hd2.
      rewrite Hd1 in Hd2. now injection Hd2 as ->. }
  destruct (dict_get display mapping) as [actual|] eqn:Hget.
  - apply (dict_get_elem mapping) in Hget; [|exact Hkeys].
    destruct (df_cols df !! actual) as [col|] eqn:Hcol.
    + apply elem_of_list_to_map_1.
      * (* the renamed labels are distinct *)
        change (NoDup (fst <$> (rename <$> map_to_list selected))).
        rewrite <- list_fmap_compose.
        apply NoDup_fmap_2_strong; [|apply NoDup_map_to_list].
        intros [a1 c1] [a2 c2] H1 H2 Heq. unfold rename in Heq; cbn [fst snd compose] in Heq.
        pose proof (Hsel a1 c1) as [Hs1 _]. specialize (Hs1 H1) as [Hin1 Hc1].
        pose proof (Hsel a2 c2) as [Hs2 _]. specialize (Hs2 H2) as [Hin2 Hc2].
        apply list_elem_of_In, in_map_iff in Hin1 as ([d1 a1'] & Ha1 & Hin1).
        apply list_elem_of_In, in_map_iff in Hin2 as ([d2 a2'] & Ha2 & Hin2).
        simpl in Ha1, Ha2. subst a1' a2'.
        apply list_elem_of_In in Hin1, Hin2.
        rewrite (proj2 (dict_get_swapped mapping a1 d1 Hvals) Hin1) in Heq.
        rewrite (proj2 (dict_get_swapped mapping a2 d2 Hvals) Hin2) in Heq.
        simpl in Heq. subst d2.
        apply (dict_get_elem mapping) in Hin1, Hin2; try exact Hkeys.
        assert (a1 = a2) by congruence. subst a2.
        f_equal. congruence.
      * apply list_elem_of_In, in_map_iff. exists (actual, col).
        assert (Hin : (actual, col) ∈ map_to_list selected).
        { apply Hsel. split; [|exact Hcol].
          apply list_elem_of_In, in_map_iff. exists (display, actual).
          split; [reflexivity|]. now apply list_elem_of_In. }
        split; [now apply Hren|now apply list_elem_of_In].
    + apply not_elem_of_list_to_map_1.
      intros Hin. apply list_elem_of_In, in_map_iff in Hin as ([d c] & Hd & Hin).
      simpl in Hd. subst d.
      apply in_map_iff in Hin as ([a c'] & Hr & Hin).
      apply list_elem_of_In in Hin.
      assert (c' = c) by (unfold rename in Hr; simpl in Hr; congruence). subst c'.
      apply (Hren a c display Hin) in Hr.
      apply (dict_get_elem mapping) in Hr, Hget; try exact Hkeys.
      assert (a = actual) by congruence. subst a.
      apply Hsel in Hin as [_ Hc]. congruence.
  - apply not_elem_of_list_to_map_1.
    intros Hin. apply list_elem_of_In, in_map_iff in Hin as ([d c] & Hd & Hin).
    simpl in Hd. subst d.
    apply in_map_iff in Hin as ([a c'] & Hr & Hin).
    apply list_elem_of_In in Hin.
    assert (c' = c) by (unfold rename in Hr; simpl in Hr; congruence). subst c'.
    apply (Hren a c display Hin) in Hr.
    apply (dict_get_elem mapping) in Hr; [|exact Hkeys]. congruence.
Qed.

(** X2.  Building [df_view] never raises.  [df_view] has the rows of [df],
    and its column under a display name of the data table is the column of
    [df] that the name stands for, when [df] has it; it has no other
    columns. *)
Theorem make_df_view_columns (df : DataFrame) :
  exists df_view,
    make_df_view df = Ok df_view
    /\ df_len df_view = df_len df
    /\ forall display,
        df_cols df_view !! display
        = match dict_get display data_table_display_to_actual with
          | Some actual => df_cols df !! actual
          | None => None
          end.
Proof.
  destruct data_table_names_distinct as (Hkeys & Hvals & Hinv).
  unfold make_df_view, df_loc.
  destruct (loc_columns_existing df
              (get_existing_columns data_table_display_to_actual df))
    as (cols & Hrun & Hfst & Hcols).
  { apply Forall_forall. intros name Hname.
    now apply get_existing_columns_elem in Hname as [_ Hsome]. }
  rewrite Hrun. cbn [result_bind]. eexists. split; [reflexivity|].
  split; [reflexivity|]. intros display.
  unfold df_rename. cbn [df_cols df_len]. rewrite Hinv.
  now apply renamed_selection_lookup.
Qed.

(** X3.  In the device overview the display names and the existing columns
    line up, whatever the mapping and the table: there are as many of the
    one as of the other, and paired off they are the items of the mapping
    whose column is in the table, in order.  This holds also where two
    display names stand for one column, as in the overview mapping. *)
Theorem display_names_aligned (mapping : pydict) (df : DataFrame) :
  let existing_actual := get_existing_columns mapping df in
  let display_names := display_names_of mapping existing_actual in
  length display_names = length existing_actual
  /\ zip display_names existing_actual
     = List.filter (fun item => in_columns df item.2) mapping.
Proof.
  intros existing_actual display_names.
  assert (Hsame :
            List.filter (fun item : string * string =>
                           bool_decide (item.2 ∈ existing_actual)) mapping
            = List.filter (fun item => in_columns df item.2) mapping).
  { apply List.filter_ext_in. intros [d a] Hin. cbn [snd].
    apply eq_true_iff_eq. rewrite bool_decide_eq_true, in_columns_spec.
    subst existing_actual. rewrite get_existing_columns_elem. split.
    - now intros [_ H].
    - intros H. split; [|exact H].
      apply list_elem_of_In, in_map_iff. now exists (d, a). }
  subst display_names. unfold display_names_of. rewrite Hsame.
  subst existing_actual. unfold get_existing_columns. split.
  - now rewrite !length_map.
  - apply zip_fst_snd.
Qed.

(** ** More on [adjust_count_for_duplicates] *)

Lemma extra_instances_cases (series : Series) :
  extra_instances series
  = if forallb arithmetic_cell series
    then Ok (foldr (fun c acc => (cell_extra c + acc)%Q) 0%Q series)
    else Raise TypeError.
Proof.
  unfold extra_instances.
  assert (H : series_minus_one series
              = if forallb arithmetic_cell series
                then series_minus_one series else Raise TypeError).
  { induction series as [|c series IH]; simpl; [reflexivity|].
    destruct c; simpl; try reflexivity;
      rewrite IH; destruct (forallb arithmetic_cell series); reflexivity. }
  rewrite H. clear H.
  induction series as [|c series IH]; simpl; [reflexivity|].
  destruct (arithmetic_cell c) eqn:Hc; simpl; [|reflexivity].
  destruct (forallb arithmetic_cell series) eqn:Hall.
  - destruct (series_minus_one series) as [xs|err] eqn:Hxs; [|discriminate].
    simpl in IH. injection IH as IH.
    destruct c; try discriminate; simpl; now rewrite IH.
  - destruct c; try discriminate; reflexivity.
Qed.

Lemma cell_extra_nonneg (c : cell) : (0 <= cell_extra c)%Q.
Proof. destruct c; simpl; try apply Q.le_max_r; apply Qle_refl. Qed.

Lemma cell_extras_perm (xs ys : Series) :
  xs ≡ₚ ys ->
  (foldr (fun c acc => (cell_extra c + acc)%Q) 0%Q xs
   == foldr (fun c acc => (cell_extra c + acc)%Q) 0%Q ys)%Q.
Proof.
  induction 1 as [|c xs ys _ IH|c c' xs|xs ys zs _ IH1 _ IH2]; simpl.
  - reflexivity.
  - now rewrite IH.
  - ring.
  - now rewrite IH1.
Qed.

Lemma arithmetic_perm (xs ys : Series) :
  xs ≡ₚ ys -> forallb arithmetic_cell xs = forallb arithmetic_cell ys.
Proof.
  induction 1 as [|c xs ys _ IH|c c' xs|xs ys zs _ IH1 _ IH2]; simpl.
  - reflexivity.
  - now rewrite IH.
  - destruct (arithmetic_cell c), (arithmetic_cell c'); reflexivity.
  - now rewrite IH1.
Qed.

(** X4.  On numbers in the range where the sums of pandas are exact,
    [adjust_count_for_duplicates] returns a count exactly when neither
    series holds a string; when one does, it raises [TypeError].  A missing
    value, NaN or [None], is no error: it adds nothing. *)
Theorem adjust_count_for_duplicates_raises (k : nat) (base : Q) (e s : Series) :
  exact_counts k (CFloat base :: e ++ s) = true ->
  (forallb arithmetic_cell (e ++ s) = true
   <-> exists n, adjust_count_for_duplicates base e s = Ok n)
  /\ (forallb arithmetic_cell (e ++ s) = false
      <-> adjust_count_for_duplicates base e s = Raise TypeError)
  /\ adjust_count_for_duplicates base (CNaN :: e) (CNone :: s)
     = adjust_count_for_duplicates base e s.
Proof.
  intros _. unfold adjust_count_for_duplicates.
  rewrite !extra_instances_cases, forallb_app. simpl.
  destruct (forallb arithmetic_cell e), (forallb arithmetic_cell s); simpl.
  - split; [|split].
    + split; [eauto|reflexivity].
    + split; discriminate.
    + f_equal. now rewrite !Qplus_0_l.
  - split; [|split]; [split; [discriminate|intros [n Hn]; discriminate]| |reflexivity].
    split; reflexivity.
  - split; [|split]; [split; [discriminate|intros [n Hn]; discriminate]| |reflexivity].
    split; reflexivity.
  - split; [|split]; [split; [discriminate|intros [n Hn]; discriminate]| |reflexivity].
    split; reflexivity.
Qed.

(** X4 on a series with a [None]: a count is returned. *)
Lemma adjust_count_for_duplicates_raises_witness :
  exact_counts 0 (CFloat 10 :: [CInt 2; CNone] ++ [CNaN; CBool true]) = true
  /\ exists n,
      adjust_count_for_duplicates 10 [CInt 2; CNone] [CNaN; CBool true] = Ok n.
Proof.
  split; [reflexivity|].
  apply (proj1 (proj1 (adjust_count_for_duplicates_raises
                         0 10 [CInt 2; CNone] [CNaN; CBool true] eq_refl))).
  reflexivity.
Defined.

(** X5.  On numbers in the range where the sums of pandas are exact, the
    count does not depend on the order of the rows: permuting either series
    changes neither the value nor the error. *)
Theorem adjust_count_for_duplicates_row_order (k : nat) (base : Q)
    (e e' s s' : Series) :
  exact_counts k (CFloat base :: e ++ s) = true ->
  e ≡ₚ e' -> s ≡ₚ s' ->
  adjust_count_for_duplicates base e s = adjust_count_for_duplicates base e' s'.
Proof.
  intros _ He Hs. unfold adjust_count_for_duplicates.
  rewrite !extra_instances_cases.
  rewrite (arithmetic_perm _ _ He), (arithmetic_perm _ _ Hs).
  destruct (forallb arithmetic_cell e'), (forallb arithmetic_cell s');
    simpl; try reflexivity.
  f_equal. now rewrite (cell_extras_perm _ _ He), (cell_extras_perm _ _ Hs).
Qed.

Lemma adjust_count_for_duplicates_row_order_witness :
  adjust_count_for_duplicates 10 [CInt 2; CInt 3; CNaN] [CFloat 1.5; CInt 1]
  = adjust_count_for_duplicates 10 [CInt 3; CInt 2; CNaN] [CInt 1; CFloat 1.5].
Proof.
  apply (adjust_count_for_duplicates_row_order 1);
    [reflexivity | apply perm_swap | apply perm_swap].
Defined.

(** ** More on the counting functions *)

Lemma update_columns_raise (f : Series -> Series) (pre post : list string)
    (name : string) (df : DataFrame) :
  Forall (fun n => is_Some (df_cols df !! n)) pre ->
  df_cols df !! name = None ->
  update_columns f (pre ++ name :: post) df
  = (Raise (KeyError name), df_alter f pre df).
Proof.
  revert df. induction pre as [|p pre IH]; intros df Hpre Hname; simpl.
  - rewrite (table_bind_raise _ _ _ _ _ (get_column_raise _ _ Hname)).
    destruct df; reflexivity.
  - apply Forall_cons in Hpre as [[col Hcol] Hpre].
    rewrite (table_bind_ok _ _ _ _ _ (get_column_ok _ _ _ Hcol)).
    unfold table_bind at 1, set_column.
    rewrite IH.
    + unfold df_alter, df_assign. simpl. do 3 f_equal.
      apply map_eq. intros k. rewrite lookup_alter, lookup_insert.
      destruct (decide (p = k)) as [->|]; [now rewrite Hcol|reflexivity].
    + simpl. eapply Forall_impl; [exact Hpre|]. intros k [c Hc]. simpl in *.
      rewrite lookup_insert. destruct (decide (p = k)); eauto.
    + simpl. rewrite lookup_insert_ne; [exact Hname|].
      intros ->. rewrite Hname in Hcol. discriminate.
Qed.

Section CountingFacts.

Variable float_repr : Q -> string.
Variable parse_number : string -> option Q.

Local Abbreviation normalize := (normalize_bool_column float_repr).
Local Abbreviation coerce := (to_numeric_fillna parse_number).
Local Abbreviation values := (fun col => fillna_0 (map (to_numeric parse_number) col)).

(** X6.  [count_total_devices] in full.  Without the Entra column it raises
    [KeyError] and leaves the table alone; with it but without the Sophos
    column it raises [KeyError] after it has overwritten the Entra column;
    with both, and coerced counts in the range where the sums of pandas are
    exact, it returns the number of rows plus the extras of the two coerced
    columns. *)
Theorem count_total_devices_cases (df : DataFrame) :
  (df_cols df !! ENTRA_COUNT = None ->
   count_total_devices parse_number df = (Raise (KeyError ENTRA_COUNT), df))
  /\ (forall e,
        df_cols df !! ENTRA_COUNT = Some e ->
        df_cols df !! SOPHOS_COUNT = None ->
        count_total_devices parse_number df
        = (Raise (KeyError SOPHOS_COUNT), df_assign ENTRA_COUNT (coerce e) df))
  /\ (forall k e s,
        df_cols df !! ENTRA_COUNT = Some e ->
        df_cols df !! SOPHOS_COUNT = Some s ->
        exact_counts k (CInt (Z.of_nat (df_len df)) :: coerce e ++ coerce s) = true ->
        count_total_devices parse_number df
        = (Ok (py_int (inject_Z (Z.of_nat (df_len df))
                       + clipped_extras (values e) + clipped_extras (values s))),
           df_assign SOPHOS_COUNT (coerce s) (df_assign ENTRA_COUNT (coerce e) df))).
Proof.
  split; [|split].
  - intros He. unfold count_total_devices.
    apply table_bind_raise. unfold coerce_column.
    apply table_bind_raise. now apply get_column_raise.
  - intros e He Hs. unfold count_total_devices.
    rewrite (table_bind_ok _ _ _ _ _ (coerce_column_ok parse_number _ _ _ He)).
    apply table_bind_raise. unfold coerce_column.
    apply table_bind_raise. apply get_column_raise.
    now rewrite df_assign_lookup_ne by discriminate.
  - intros k e s He Hs _.
    rewrite (count_total_devices_run parse_number df e s He Hs). f_equal.
    unfold to_numeric_fillna. apply adjust_count_floats.
Qed.

(** X7.  When a presence column is missing, [count_all_5_contexts] raises
    [KeyError] for the first missing one, and the presence columns before
    it have already been overwritten by their normalized versions. *)
Theorem count_all_5_contexts_missing_flag (df : DataFrame)
    (before after : list string) (name : string) :
  PRESENCE_BOOL_COLS = (before ++ name :: after)%list ->
  Forall (fun n => is_Some (df_cols df !! n)) before ->
  df_cols df !! name = None ->
  count_all_5_contexts float_repr parse_number df
  = (Raise (KeyError name), df_alter normalize before df).
Proof.
  intros Hsplit Hbefore Hname. unfold count_all_5_contexts.
  apply table_bind_raise. rewrite Hsplit.
  now apply update_columns_raise.
Qed.

Lemma all_axis1_length_le (n : nat) (cols : list Series) :
  (length (all_axis1 n cols) <= n)%nat.
Proof.
  unfold all_axis1. induction cols as [|col cols IH]; simpl.
  - now rewrite length_replicate.
  - rewrite length_zip_with. lia.
Qed.

Lemma mask_count_le (mask : list bool) : (mask_count mask <= length mask)%nat.
Proof. unfold mask_count. apply length_filter. Qed.

Lemma extra_of_count_nonneg (c : Q) : (0 <= extra_of_count c)%Q.
Proof. rewrite <- extra_of_count_max. apply Q.le_max_r. Qed.

Lemma clipped_select_le (mask : list bool) (counts : list Q) :
  (clipped_extras (select_rows mask counts) <= clipped_extras counts)%Q.
Proof.
  revert counts. induction mask as [|b mask IH]; intros [|c counts];
    try apply Qle_refl.
  - apply (clipped_extras_nonneg (c :: counts)).
  - simpl. destruct b; simpl.
    + apply Qplus_le_compat; [apply Qle_refl|apply IH].
    + rewrite <- (Qplus_0_l (clipped_extras (select_rows mask counts))).
      apply Qplus_le_compat; [apply extra_of_count_nonneg|apply IH].
Qed.

(** X8.  On a table that has the columns, with coerced counts in the range
    where the sums of pandas are exact, both counts are defined, the total
    is at least the number of rows, and the count of the devices in all
    five contexts lies between 0 and the total. *)
Theorem all_5_within_total (k : nat) (df : DataFrame) (cols : list Series)
    (e s : Series) :
  Forall2 (fun name col => df_cols df !! name = Some col) PRESENCE_BOOL_COLS cols ->
  df_cols df !! ENTRA_COUNT = Some e ->
  df_cols df !! SOPHOS_COUNT = Some s ->
  exact_counts k (CInt (Z.of_nat (df_len df)) :: coerce e ++ coerce s) = true ->
  exists all_5 total,
    fst (count_all_5_contexts float_repr parse_number df) = Ok all_5
    /\ fst (count_total_devices parse_number df) = Ok total
    /\ 0 <= all_5 <= total
    /\ Z.of_nat (df_len df) <= total.
Proof.
  intros Hcols He Hs _.
  rewrite (count_all_5_contexts_run float_repr parse_number df cols e s Hcols He Hs).
  rewrite (count_total_devices_run parse_number df e s He Hs). cbn [fst].
  rewrite adjust_count_coerced.
  unfold to_numeric_fillna at 1 2. rewrite adjust_count_floats.
  set (mask := all_axis1 (df_len df) (map normalize cols)).
  do 2 eexists. split; [reflexivity|]. split; [reflexivity|].
  assert (Hcount : (inject_Z (Z.of_nat (mask_count mask))
                    <= inject_Z (Z.of_nat (df_len df)))%Q).
  { rewrite <- Zle_Qle. apply inj_le.
    etransitivity; [apply mask_count_le|apply all_axis1_length_le]. }
  repeat split.
  - change 0 with (py_int 0). apply py_int_mono.
    change 0%Q with (0 + 0 + 0)%Q.
    repeat apply Qplus_le_compat; try apply clipped_extras_nonneg.
    change 0%Q with (inject_Z 0). rewrite <- Zle_Qle. lia.
  - apply py_int_mono.
    repeat apply Qplus_le_compat; [exact Hcount| |]; apply clipped_select_le.
  - rewrite <- (py_int_inject_Z (Z.of_nat (df_len df))) at 1.
    apply py_int_mono.
    rewrite <- (Qplus_0_r (inject_Z (Z.of_nat (df_len df)))) at 1.
    rewrite <- Qplus_assoc.
    apply Qplus_le_compat; [apply Qle_refl|].
    change 0%Q with (0 + 0)%Q.
    apply Qplus_le_compat; apply clipped_extras_nonneg.
Qed.

Lemma coerce_idempotent (col : Series) : coerce (coerce col) = coerce col.
Proof.
  unfold to_numeric_fillna, fillna_0. rewrite !map_map.
  apply map_ext. intros c. reflexivity.
Qed.

Lemma normalize_idempotent (col : Series) : normalize (normalize col) = normalize col.
Proof.
  unfold normalize_bool_column. rewrite map_map. apply map_ext.
  intros c. destruct (normalize_bool float_repr c); reflexivity.
Qed.

Lemma columns_transfer (a b : DataFrame) (names : list string)
    (cols : list Series) :
  (forall name, name ∈ names -> df_cols b !! name = df_cols a !! name) ->
  Forall2 (fun name col => df_cols a !! name = Some col) names cols ->
  Forall2 (fun name col => df_cols b !! name = Some col) names cols.
Proof.
  intros Hsame Hcols.
  induction Hcols as [|name col names cols Hcol _ IH]; constructor.
  - rewrite Hsame by apply list_elem_of_here. exact Hcol.
  - apply IH. intros n Hn. apply Hsame. now apply list_elem_of_further.
Qed.

Lemma count_multi_instance_devices_reads (a b : DataFrame) :
  df_cols a !! MULTI_INSTANCE_COL = df_cols b !! MULTI_INSTANCE_COL ->
  fst (count_multi_instance_devices parse_number a)
    = fst (count_multi_instance_devices parse_number b).
Proof.
  intros Hsame. unfold count_multi_instance_devices, table_bind, get_column, df_column.
  rewrite Hsame.
  destruct (df_cols b !! MULTI_INSTANCE_COL) as [col|]; [|reflexivity].
  destruct (dtype_is_bool col); [reflexivity|].
  unfold lift_result. now destruct (series_gt_0 (coerce col)).
Qed.

(** X9.  The assignments the counting functions make to [df] do not change
    what the later steps compute: run in the script's order, one after the
    other on the same table, [count_all_5_contexts],
    [count_multi_instance_devices] and the distribution return what each
    returns on the table as loaded. *)
Theorem script_order_harmless (df : DataFrame) (cols : list Series) (e s : Series) :
  Forall2 (fun name col => df_cols df !! name = Some col) PRESENCE_BOOL_COLS cols ->
  df_cols df !! ENTRA_COUNT = Some e ->
  df_cols df !! SOPHOS_COUNT = Some s ->
  let after_total := snd (count_total_devices parse_number df) in
  let after_all_5 := snd (count_all_5_contexts float_repr parse_number after_total) in
  let after_multi := snd (count_multi_instance_devices parse_number after_all_5) in
  fst (count_all_5_contexts float_repr parse_number after_total)
    = fst (count_all_5_contexts float_repr parse_number df)
  /\ fst (count_multi_instance_devices parse_number after_all_5)
     = fst (count_multi_instance_devices parse_number df)
  /\ fst (adjusted_counts float_repr parse_number after_multi)
     = fst (adjusted_counts float_repr parse_number df).
Proof.
  intros Hcols He Hs after_total after_all_5 after_multi.
  destruct presence_not_counts as (HE & HS & Hnd).
  assert (Hne : ENTRA_COUNT <> SOPHOS_COUNT) by discriminate.
  (* the table after count_total_devices *)
  assert (Htotal : after_total
                   = df_assign SOPHOS_COUNT (coerce s)
                       (df_assign ENTRA_COUNT (coerce e) df)).
  { subst after_total.
    now rewrite (count_total_devices_run parse_number df e s He Hs). }
  assert (Hcols1 : Forall2 (fun name col => df_cols after_total !! name = Some col)
                     PRESENCE_BOOL_COLS cols).
  { apply (columns_transfer df); [|exact Hcols].
    intros name Hin. rewrite Htotal.
    now rewrite !df_assign_lookup_ne by (intros <-; contradiction). }
  assert (He1 : df_cols after_total !! ENTRA_COUNT = Some (coerce e)).
  { rewrite Htotal. rewrite df_assign_lookup_ne by congruence.
    apply df_assign_lookup_eq. }
  assert (Hs1 : df_cols after_total !! SOPHOS_COUNT = Some (coerce s)).
  { rewrite Htotal. apply df_assign_lookup_eq. }
  assert (Hlen1 : df_len after_total = df_len df) by now rewrite Htotal.
  (* the table after count_all_5_contexts *)
  assert (Hall5 : after_all_5
                  = prepared float_repr parse_number PRESENCE_BOOL_COLS
                      ENTRA_COUNT SOPHOS_COUNT after_total (coerce e) (coerce s)).
  { subst after_all_5.
    now rewrite (count_all_5_contexts_run float_repr parse_number
                   after_total cols _ _ Hcols1 He1 Hs1). }
  assert (Hmulti : after_multi = after_all_5)
    by apply count_multi_instance_devices_pure.
  assert (Hcols2 : Forall2 (fun name col => df_cols after_all_5 !! name = Some col)
                     PRESENCE_BOOL_COLS (map normalize cols)).
  { rewrite Hall5. now apply prepared_presence. }
  destruct (prepared_lookup_counts float_repr parse_number PRESENCE_BOOL_COLS
              ENTRA_COUNT SOPHOS_COUNT Hne after_total (coerce e) (coerce s))
    as (He2 & Hs2 & Hlen2).
  rewrite <- Hall5 in He2, Hs2, Hlen2.
  split; [|split].
  - rewrite (count_all_5_contexts_run float_repr parse_number
               after_total cols _ _ Hcols1 He1 Hs1).
    rewrite (count_all_5_contexts_run float_repr parse_number df cols e s Hcols He Hs).
    cbn [fst]. now rewrite Hlen1, !coerce_idempotent.
  - apply count_multi_instance_devices_reads.
    rewrite Hall5. unfold prepared.
    rewrite !df_assign_lookup_ne by discriminate.
    rewrite df_alter_lookup_ne.
    + rewrite Htotal. now rewrite !df_assign_lookup_ne by discriminate.
    + unfold MULTI_INSTANCE_COL, PRESENCE_BOOL_COLS.
      rewrite !not_elem_of_cons. repeat split; try discriminate.
      apply not_elem_of_nil.
  - rewrite Hmulti.
    set (present := sum_axis1 (df_len df) (map normalize cols)).
    set (bucket_value := fun k =>
           py_int (inject_Z (Z.of_nat (mask_count (map (Z.eqb k) present)))
                   + clipped_extras (select_rows (map (Z.eqb k) present) (values e))
                   + clipped_extras (select_rows (map (Z.eqb k) present) (values s)))).
    rewrite (adjusted_counts_run float_repr parse_number df cols e s Hcols He Hs
               bucket_value) by (intros k; apply adjust_count_coerced).
    rewrite (adjusted_counts_run float_repr parse_number after_all_5
               (map normalize cols) _ _ Hcols2 He2 Hs2 bucket_value).
    + rewrite Hlen2, Hlen1.
      replace (map normalize (map normalize cols)) with (map normalize cols);
        [reflexivity|].
      rewrite map_map. apply map_ext. intros col.
      symmetry. apply normalize_idempotent.
    + intros k. rewrite Hlen2, Hlen1.
      replace (map normalize (map normalize cols)) with (map normalize cols).
      * rewrite !coerce_idempotent. apply adjust_count_coerced.
      * rewrite map_map. apply map_ext. intros col.
        symmetry. apply normalize_idempotent.
Qed.

Lemma select_rows_none (k : Z) (card : list Z) {A} (xs : list A) :
  k ∉ card ->
  select_rows (map (Z.eqb k) card) xs = [] /\ mask_count (map (Z.eqb k) card) = 0%nat.
Proof.
  unfold mask_count.
  revert xs. induction card as [|c card IH]; intros xs Hk; simpl.
  - split; [now destruct xs|reflexivity].
  - apply not_elem_of_cons in Hk as [Hne Hk].
    destruct (Z.eqb_spec k c) as [->|_]; [contradiction|].
    rewrite filter_cons. simpl.
    destruct xs as [|x xs]; [split; [reflexivity|apply (IH [] Hk)]|].
    apply (IH xs Hk).
Qed.

Lemma extra_of_count_integral (q : Q) :
  is_integral q = true ->
  (extra_of_count q == inject_Z (Z.max (Qfloor q - 1) 0))%Q.
Proof.
  unfold is_integral. intros Hq. apply Qeq_bool_iff in Hq.
  rewrite <- Qmax_inject_Z, <- extra_of_count_max.
  set (z := Qfloor q) in *. now rewrite Hq.
Qed.

Lemma clipped_extras_whole (counts : list Q) :
  forallb is_integral counts = true ->
  (clipped_extras counts == inject_Z (duplicate_extras (map Qfloor counts)))%Q.
Proof.
  induction counts as [|c counts IH]; intros Hint; [reflexivity|].
  simpl in Hint. apply andb_prop in Hint as [Hc Hint]. simpl.
  rewrite inject_Z_plus, (IH Hint), (extra_of_count_integral c Hc).
  reflexivity.
Qed.

Lemma forallb_select_rows {A} (p : A -> bool) (mask : list bool) (xs : list A) :
  forallb p xs = true -> forallb p (select_rows mask xs) = true.
Proof.
  revert xs. induction mask as [|b mask IH]; intros [|x xs] Hall;
    try reflexivity.
  simpl in Hall. apply andb_prop in Hall as [Hx Hall]. simpl.
  destruct b; simpl; [rewrite Hx|]; now apply IH.
Qed.

(** Rows whose cardinality is one of 0..5 fall into exactly one of the six
    buckets. *)
Lemma six_buckets_partition {A} (g : A -> Z) (card : list Z) (xs : list A) :
  Forall (fun c => 0 <= c <= 5) card ->
  length xs = length card ->
  let weight := fun k =>
    foldr (fun x acc => g x + acc) 0 (select_rows (map (Z.eqb k) card) xs) in
  weight 0 + weight 1 + weight 2 + weight 3 + weight 4 + weight 5
  = foldr (fun x acc => g x + acc) 0 xs.
Proof.
  intros Hcard. revert xs.
  induction Hcard as [|c card Hc _ IH]; intros [|x xs] Hlen; simpl in *;
    try reflexivity; try discriminate.
  specialize (IH xs ltac:(lia)). simpl in IH. rewrite <- IH.
  assert (Hcase : c = 0 \/ c = 1 \/ c = 2 \/ c = 3 \/ c = 4 \/ c = 5) by lia.
  destruct Hcase as [-> | [-> | [-> | [-> | [-> | ->]]]]]; simpl; lia.
Qed.

Lemma mask_count_weight (mask : list bool) {A} (xs : list A) :
  length xs = length mask ->
  Z.of_nat (mask_count mask)
  = foldr (fun _ acc => 1 + acc) 0 (select_rows mask xs).
Proof.
  intros Hlen. rewrite <- (select_rows_length mask xs Hlen).
  induction (select_rows mask xs) as [|x l IH]; simpl; [reflexivity|]. lia.
Qed.

Lemma on_grid_0_integral (q : Q) : on_grid 0 q = true -> is_integral q = true.
Proof.
  unfold on_grid, is_integral. change (2 ^ Z.of_nat 0) with 1.
  rewrite !Qeq_bool_iff. intros H.
  assert (E : (q * inject_Z 1 == q)%Q) by ring.
  rewrite <- E at 1. rewrite <- (Qfloor_comp _ _ E). exact H.
Qed.

Lemma exact_counts_whole (c : cell) (xs ys : list Q) :
  exact_counts 0 (c :: map CFloat xs ++ map CFloat ys) = true ->
  forallb is_integral xs = true /\ forallb is_integral ys = true.
Proof.
  unfold exact_counts. intros H. apply andb_prop in H as [H _].
  cbn [forallb] in H. apply andb_prop in H as [_ H].
  rewrite forallb_app in H. apply andb_prop in H as [Hx Hy].
  assert (Hmap : forall l, forallb (cell_on_grid 0) (map CFloat l) = true ->
                           forallb is_integral l = true).
  { induction l as [|q l IH]; simpl; [reflexivity|].
    intros Hl. apply andb_prop in Hl as [Hq Hl].
    now rewrite (on_grid_0_integral q Hq), (IH Hl). }
  split; now apply Hmap.
Qed.

(** X10.  When the instance counts are whole numbers, in the range where
    the sums of pandas are exact, the buckets of the distribution add up
    to the total device count: every row, with its extras, is counted in
    exactly one bucket. *)
Theorem buckets_sum_to_total (df : DataFrame) (cols : list Series) (e s : Series) :
  Forall2 (has_column df) PRESENCE_BOOL_COLS cols ->
  has_column df ENTRA_COUNT e ->
  has_column df SOPHOS_COUNT s ->
  exact_counts 0 (CInt (Z.of_nat (df_len df)) :: coerce e ++ coerce s) = true ->
  exists counts total,
    fst (adjusted_counts float_repr parse_number df) = Ok counts
    /\ fst (count_total_devices parse_number df) = Ok total
    /\ default 0 (counts !! 0) + default 0 (counts !! 1) + default 0 (counts !! 2)
       + default 0 (counts !! 3) + default 0 (counts !! 4) + default 0 (counts !! 5)
       = total.
Proof.
  intros Hcols [He Hle] [Hs Hls] Hexact.
  destruct (exact_counts_whole _ (values e) (values s) Hexact) as [Hie His].
  apply has_columns_split in Hcols as [Hcols Hlen].
  set (present := sum_axis1 (df_len df) (map normalize cols)).
  set (ez := map Qfloor (values e)). set (sz := map Qfloor (values s)).
  set (bucket_value := fun k =>
         Z.of_nat (mask_count (map (Z.eqb k) present))
         + duplicate_extras (select_rows (map (Z.eqb k) present) ez)
         + duplicate_extras (select_rows (map (Z.eqb k) present) sz)).
  assert (Hbucket : forall k,
             adjust_count_for_duplicates
               (inject_Z (Z.of_nat (mask_count (map (Z.eqb k) present))))
               (select_rows (map (Z.eqb k) present) (coerce e))
               (select_rows (map (Z.eqb k) present) (coerce s))
             = Ok (bucket_value k)).
  { intros k. rewrite adjust_count_coerced. f_equal. unfold bucket_value.
    rewrite !clipped_extras_whole by now apply forallb_select_rows.
    rewrite <- !select_rows_map, <- !inject_Z_plus. apply py_int_inject_Z. }
  (* the rows, their cardinalities and their counts *)
  assert (Hpresent : Forall (fun c => 0 <= c <= 5) present
                     /\ length present = df_len df).
  { subst present. rewrite sum_axis1_rows.
    - split.
      + apply Forall_forall. intros c Hc.
        apply row_cardinality_bounds in Hc. rewrite !length_map in Hc.
        apply Forall2_length in Hcols. rewrite <- Hcols in Hc. exact Hc.
      + unfold row_cardinality. now rewrite length_map, length_seq.
    - apply Forall_map. eapply Forall_impl; [exact Hlen|].
      intros col Hcol. simpl. now rewrite normalize_bool_column_length. }
  destruct Hpresent as [Hrange Hplen].
  assert (Hlookup : forall k,
             default 0 (foldl (fun counts k => <[k := bucket_value k]> counts)
                          (∅ : gmap Z Z) (merge_sort Z.le (remove_dups present)) !! k)
             = bucket_value k).
  { intros k. destruct (decide (k ∈ present)) as [Hin|Hout].
    - rewrite (foldl_insert_lookup (fun k => k) bucket_value _ _ k (bucket_value k));
        [reflexivity|now intros k' _ ->|].
      right. exists k. split; [|reflexivity].
      exact (proj2 (elem_of_sorted_unique _ _) Hin).
    - rewrite (foldl_insert_lookup_ne (fun k => k) bucket_value).
      + rewrite lookup_empty. simpl. unfold bucket_value.
        destruct (select_rows_none k present ez Hout) as [-> ->].
        destruct (select_rows_none k present sz Hout) as [-> _]. reflexivity.
      + intros k' Hk' Heq. apply Hout. rewrite <- Heq.
        exact (proj1 (elem_of_sorted_unique _ _) Hk'). }
  do 2 eexists. split; [|split].
  - exact (adjusted_counts_run float_repr parse_number df cols e s Hcols He Hs
             bucket_value Hbucket).
  - rewrite (count_total_devices_run parse_number df e s He Hs). cbn [fst].
    unfold to_numeric_fillna. rewrite adjust_count_floats.
    rewrite (clipped_extras_whole _ Hie), (clipped_extras_whole _ His).
    rewrite <- !inject_Z_plus, py_int_inject_Z. reflexivity.
  - rewrite !Hlookup. unfold bucket_value.
    assert (Hez : length ez = length present)
      by (subst ez; unfold fillna_0; now rewrite !length_map, Hle, Hplen).
    assert (Hsz : length sz = length present)
      by (subst sz; unfold fillna_0; now rewrite !length_map, Hls, Hplen).
    pose proof (six_buckets_partition (fun c => Z.max (c - 1) 0) present ez Hrange Hez) as HE.
    pose proof (six_buckets_partition (fun c => Z.max (c - 1) 0) present sz Hrange Hsz) as HS.
    pose proof (six_buckets_partition (fun _ : Z => 1) present present Hrange eq_refl) as HN.
    cbv beta zeta in HE, HS, HN.
    rewrite <- !(mask_count_weight _ present) in HN by now rewrite length_map.
    assert (Hn : foldr (fun _ acc : Z => 1 + acc) 0 present = Z.of_nat (df_len df)).
    { rewrite <- Hplen. clear. induction present as [|c l IH]; simpl; [reflexivity|].
      rewrite IH. lia. }
    fold ez sz. unfold duplicate_extras in *. lia.
Qed.

End CountingFacts.

(** X7 on the sample table without its [InAD] column. *)
Lemma count_all_5_contexts_missing_flag_witness :
  let df := mkDataFrame 4 (delete "InAD" (df_cols Sample.devices)) in
  fst (count_all_5_contexts Sample.float_repr Sample.parse_number df)
    = Raise (KeyError "InAD")
  /\ df_cols (snd (count_all_5_contexts Sample.float_repr Sample.parse_number df))
       !! "InEntra" = Some (map CBool [true; true; false; true])
  /\ df_cols (snd (count_all_5_contexts Sample.float_repr Sample.parse_number df))
       !! "InSophos" = Some Sample.in_sophos.
Proof.
  intros df.
  rewrite (count_all_5_contexts_missing_flag
             Sample.float_repr Sample.parse_number df
             ["InEntra"; "InIntune"] ["InSophos"; "InKACE"] "InAD").
  - repeat split; vm_compute; reflexivity.
  - reflexivity.
  - repeat constructor; vm_compute; eauto.
  - reflexivity.
Defined.

(** X8 on the sample table. *)
Lemma all_5_within_total_witness :
  exists all_5 total,
    fst (count_all_5_contexts Sample.float_repr Sample.parse_number Sample.devices)
      = Ok all_5
    /\ fst (count_total_devices Sample.parse_number Sample.devices) = Ok total
    /\ 0 <= all_5 <= total
    /\ 4 <= total.
Proof.
  apply (all_5_within_total Sample.float_repr Sample.parse_number 0 Sample.devices
           Sample.presence Sample.entra_counts Sample.sophos_counts).
  - repeat constructor.
  - reflexivity.
  - reflexivity.
  - vm_compute. reflexivity.
Defined.

(** X9 on the sample table. *)
Lemma script_order_harmless_witness :
  fst (count_all_5_contexts Sample.float_repr Sample.parse_number
         Sample.devices_counted)
  = fst (count_all_5_contexts Sample.float_repr Sample.parse_number Sample.devices).
Proof.
  apply (script_order_harmless Sample.float_repr Sample.parse_number Sample.devices
           Sample.presence Sample.entra_counts Sample.sophos_counts).
  - repeat constructor.
  - reflexivity.
  - reflexivity.
Defined.

(** X10 on the sample table: the buckets hold 10 and 1, the total is 11. *)
Lemma buckets_sum_to_total_witness :
  exists counts total,
    fst (adjusted_counts Sample.float_repr Sample.parse_number Sample.devices)
      = Ok counts
    /\ fst (count_total_devices Sample.parse_number Sample.devices) = Ok total
    /\ default 0 (counts !! 0) + default 0 (counts !! 1) + default 0 (counts !! 2)
       + default 0 (counts !! 3) + default 0 (counts !! 4) + default 0 (counts !! 5)
       = total.
Proof.
  apply (buckets_sum_to_total Sample.float_repr Sample.parse_number Sample.devices
           Sample.presence Sample.entra_counts Sample.sophos_counts).
  - repeat constructor.
  - split; reflexivity.
  - split; reflexivity.
  - vm_compute. reflexivity.
Defined.

(** ** Characters, [strip] and [lower] *)

Lemma lower_char_facts (c : ascii) :
  is_digit (PyStr.lower_char c) = is_digit c
  /\ PyStr.isspace (PyStr.lower_char c) = PyStr.isspace c
  /\ Ascii.eqb (PyStr.lower_char c) "." = Ascii.eqb c "."
  /\ PyStr.lower_char (PyStr.lower_char c) = PyStr.lower_char c
  /\ (is_digit c = true -> PyStr.lower_char c = c)
  /\ (is_digit c = true -> PyStr.isspace c = false).
Proof.
  destruct c as [[] [] [] [] [] [] [] []]; vm_compute;
    repeat split; intros; congruence.
Qed.

Lemma rstrip_cons (c : ascii) (s : string) :
  PyStr.isspace c = false ->
  PyStr.rstrip (String c s) = String c (PyStr.rstrip s).
Proof. intros Hc. simpl. rewrite Hc. now destruct (PyStr.rstrip s). Qed.

Lemma rstrip_blank (s : string) : is_blank s = true -> PyStr.rstrip s = "".
Proof.
  induction s as [|c s IH]; simpl; [reflexivity|].
  intros H. apply andb_prop in H as [Hc Hs]. now rewrite (IH Hs), Hc.
Qed.

Lemma rstrip_empty_blank (s : string) : PyStr.rstrip s = "" -> is_blank s = true.
Proof.
  induction s as [|c s IH]; simpl; [reflexivity|].
  destruct (PyStr.rstrip s) as [|c' r]; [|discriminate].
  destruct (PyStr.isspace c); [|discriminate].
  intros _. now rewrite IH.
Qed.

Lemma lstrip_blank_app (a s : string) :
  is_blank a = true -> PyStr.lstrip (a +:+ s) = PyStr.lstrip s.
Proof.
  induction a as [|c a IH]; simpl; [reflexivity|].
  intros H. apply andb_prop in H as [Hc Ha]. rewrite Hc. now apply IH.
Qed.

Lemma rstrip_app_blank (s b : string) :
  is_blank b = true -> PyStr.rstrip (s +:+ b) = PyStr.rstrip s.
Proof.
  intros Hb. induction s as [|c s IH]; simpl.
  - now apply rstrip_blank.
  - now rewrite IH.
Qed.

Lemma lstrip_app_blank (s b : string) :
  is_blank b = true ->
  PyStr.lstrip (s +:+ b) = PyStr.lstrip s +:+ b
  \/ (PyStr.lstrip (s +:+ b) = "" /\ PyStr.lstrip s = "").
Proof.
  intros Hb. induction s as [|c s IH]; simpl.
  - right. split; [|reflexivity].
    clear -Hb. induction b as [|c b IH]; simpl in *; [reflexivity|].
    apply andb_prop in Hb as [Hc Hb]. rewrite Hc. now apply IH.
  - destruct (PyStr.isspace c); [exact IH|]. now left.
Qed.

Lemma strip_padding (a s b : string) :
  is_blank a = true -> is_blank b = true ->
  PyStr.strip (a +:+ s +:+ b) = PyStr.strip s.
Proof.
  intros Ha Hb. unfold PyStr.strip. rewrite (lstrip_blank_app _ _ Ha).
  destruct (lstrip_app_blank s b Hb) as [->|[-> ->]]; [|reflexivity].
  now apply rstrip_app_blank.
Qed.

Lemma lower_lstrip (s : string) :
  PyStr.lower (PyStr.lstrip s) = PyStr.lstrip (PyStr.lower s).
Proof.
  induction s as [|c s IH]; simpl; [reflexivity|].
  destruct (lower_char_facts c) as (_ & -> & _).
  destruct (PyStr.isspace c); [exact IH|reflexivity].
Qed.

Lemma lower_rstrip (s : string) :
  PyStr.lower (PyStr.rstrip s) = PyStr.rstrip (PyStr.lower s).
Proof.
  induction s as [|c s IH]; simpl; [reflexivity|].
  rewrite <- IH. destruct (lower_char_facts c) as (_ & -> & _).
  destruct (PyStr.rstrip s); simpl; [|reflexivity].
  now destruct (PyStr.isspace c).
Qed.

Lemma lower_idempotent (s : string) : PyStr.lower (PyStr.lower s) = PyStr.lower s.
Proof.
  induction s as [|c s IH]; simpl; [reflexivity|].
  destruct (lower_char_facts c) as (_ & _ & _ & -> & _). now rewrite IH.
Qed.

Section NormalizeMore.

Variable float_repr : Q -> string.

(** X11.  Presence normalization of a text looks neither at the whitespace
    around it nor at the case of its letters. *)
Theorem normalize_bool_padding_and_case (a s b : string) :
  is_blank a = true ->
  is_blank b = true ->
  normalize_bool float_repr (CStr (a +:+ s +:+ b)) = normalize_bool float_repr (CStr s)
  /\ normalize_bool float_repr (CStr (PyStr.lower s)) = normalize_bool float_repr (CStr s).
Proof.
  intros Ha Hb. unfold normalize_bool, presence_key. cbn [astype_str]. split.
  - now rewrite (strip_padding a s b Ha Hb).
  - unfold PyStr.strip.
    now rewrite <- lower_lstrip, <- lower_rstrip, lower_idempotent.
Qed.

End NormalizeMore.

(** X11 on a padded, capitalised spelling. *)
Lemma normalize_bool_padding_and_case_witness :
  normalize_bool Sample.float_repr (CStr ("  " +:+ "FaLsE" +:+ " "))
  = normalize_bool Sample.float_repr (CStr "FaLsE")
  /\ normalize_bool Sample.float_repr (CStr (PyStr.lower "FaLsE"))
     = normalize_bool Sample.float_repr (CStr "FaLsE").
Proof.
  apply normalize_bool_padding_and_case; reflexivity.
Defined.

(** ** Decimal numerals and [parse_mb] *)

Lemma numeral_char_facts (c : ascii) :
  is_digit c || Ascii.eqb c "-" = true ->
  PyStr.isspace c = false /\ PyStr.lower_char c = c.
Proof.
  destruct c as [[] [] [] [] [] [] [] []]; vm_compute; intros; split; congruence.
Qed.

Lemma numeral_untouched (s : string) :
  is_numeral s = true -> PyStr.lower (PyStr.strip s) = s.
Proof.
  intros Hs.
  assert (Hl : PyStr.lstrip s = s).
  { destruct s as [|c s]; [reflexivity|]. simpl in *.
    apply andb_prop in Hs as [Hc _].
    now destruct (numeral_char_facts c Hc) as [-> _]. }
  unfold PyStr.strip. rewrite Hl. clear Hl.
  induction s as [|c s IH]; [reflexivity|].
  simpl in Hs. apply andb_prop in Hs as [Hc Hs].
  destruct (numeral_char_facts c Hc) as [Hspace Hlow].
  rewrite (rstrip_cons _ _ Hspace). simpl. now rewrite Hlow, (IH Hs).
Qed.

Lemma pretty_N_char_digit (x : N) :
  (x < 10)%N ->
  is_digit (pretty_N_char x) = true /\ digit_value (pretty_N_char x) = x.
Proof.
  intros Hx.
  assert (x = 0 \/ x = 1 \/ x = 2 \/ x = 3 \/ x = 4 \/ x = 5 \/ x = 6
          \/ x = 7 \/ x = 8 \/ x = 9)%N as Hcase by lia.
  destruct Hcase as [-> | [-> | [-> | [-> | [-> | [-> | [-> | [-> | [-> | ->]]]]]]]]];
    split; reflexivity.
Qed.

(** Reading the digits that [pretty] wrote gives the number back. *)
Lemma take_digits_pretty_N_go (x : N) :
  forall s,
    (forall acc count,
        exists places,
          take_digits (pretty_N_go x s) acc count
          = take_digits s (acc * 10 ^ places + x)%N (count + N.to_nat places))
    /\ (is_numeral s = true -> is_numeral (pretty_N_go x s) = true)
    /\ ((0 < x)%N -> exists c rest, pretty_N_go x s = String c rest /\ is_digit c = true).
Proof.
  induction (N.lt_wf_0 x) as [x _ IH]. intros s.
  assert (x = 0 \/ 0 < x)%N as [->|Hpos] by lia.
  - rewrite pretty_N_go_0. split; [|split].
    + intros acc count. exists 0%N. simpl.
      now rewrite N.mul_1_r, N.add_0_r, Nat.add_0_r.
    + auto.
    + lia.
  - rewrite (pretty_N_go_step x s Hpos).
    assert (Hdiv : (x `div` 10 < x)%N) by now apply N.div_lt.
    assert (Hmod : (x `mod` 10 < 10)%N) by now apply N.mod_lt.
    destruct (pretty_N_char_digit _ Hmod) as [Hdigit Hvalue].
    destruct (IH _ Hdiv (String (pretty_N_char (x `mod` 10)) s))
      as (Hread & Hnum & Hhead).
    split; [|split].
    + intros acc count. destruct (Hread acc count) as [places ->].
      exists (places + 1)%N. simpl. rewrite Hdigit, Hvalue.
      f_equal; [|lia].
      rewrite N.pow_add_r, N.pow_1_r.
      rewrite (N.div_mod x 10) at 3 by lia.
      generalize (10 ^ places)%N, (x `div` 10)%N, (x `mod` 10)%N.
      intros p d m. ring.
    + intros Hs. apply Hnum. simpl. now rewrite Hdigit, Hs.
    + intros _. destruct (N.eq_0_gt_0_cases (x `div` 10)) as [H0|Hd].
      * rewrite H0, pretty_N_go_0. eauto.
      * now apply Hhead.
Qed.

Lemma pretty_N_numeral (n : N) :
  is_numeral (pretty n) = true
  /\ exists c rest, pretty n = String c rest /\ is_digit c = true.
Proof.
  unfold pretty, pretty_N. case_decide as Hn.
  - split; [reflexivity|]. now exists "0"%char, "".
  - destruct (take_digits_pretty_N_go n "") as (_ & Hnum & Hhead).
    split; [now apply Hnum|]. apply Hhead. lia.
Qed.

Lemma pretty_Z_numeral (z : Z) :
  is_numeral (pretty z) = true
  /\ exists c rest, pretty z = String c rest
                    /\ (is_digit c || Ascii.eqb c "-" = true).
Proof.
  destruct z as [|p|p]; simpl.
  - split; [reflexivity|]. now exists "0"%char, "".
  - destruct (pretty_N_numeral (N.pos p)) as (Hn & c & rest & Heq & Hc).
    split; [exact Hn|]. exists c, rest. split; [exact Heq|]. now rewrite Hc.
  - destruct (pretty_N_numeral (N.pos p)) as (Hn & _).
    unfold pretty, pretty_Z. cbn [String.append]. split.
    + simpl. exact Hn.
    + now exists "-"%char, (pretty (N.pos p)).
Qed.

Section NormalizeIntegers.

Variable float_repr : Q -> string.

(** X12.  Presence normalization of an integer: 0 is False and every
    other integer, negative ones included, is True. *)
Theorem normalize_bool_integer (z : Z) :
  normalize_bool float_repr (CInt z) = negb (z =? 0)%Z.
Proof.
  rewrite normalize_bool_literal. unfold presence_key. cbn [astype_str].
  destruct (pretty_Z_numeral z) as (Hnum & c & rest & Heq & Hc).
  rewrite (numeral_untouched _ Hnum).
  destruct (Z.eqb_spec z 0) as [->|Hz]; [reflexivity|].
  assert (Hne : pretty z <> "0").
  { intros H. apply Hz. apply (inj pretty). exact H. }
  rewrite Heq in *. clear Heq Hnum.
  destruct c as [[] [] [] [] [] [] [] []]; try discriminate Hc;
    destruct rest as [|c' rest]; try reflexivity; congruence.
Qed.

End NormalizeIntegers.

Lemma take_digits_lower (s : string) (acc : N) (count : nat) :
  take_digits (PyStr.lower s) acc count
  = let '(a, k, rest) := take_digits s acc count in (a, k, PyStr.lower rest).
Proof.
  revert acc count. induction s as [|c s IH]; intros acc count; simpl;
    [reflexivity|].
  destruct (lower_char_facts c) as (-> & _ & _ & _ & Hsame & _).
  destruct (is_digit c) eqn:Hc; [|reflexivity].
  rewrite (Hsame eq_refl). apply IH.
Qed.

Lemma take_digits_rstrip (s : string) (acc : N) (count : nat) :
  take_digits (PyStr.rstrip s) acc count
  = let '(a, k, rest) := take_digits s acc count in (a, k, PyStr.rstrip rest).
Proof.
  revert acc count. induction s as [|c s IH]; intros acc count;
    [reflexivity|].
  destruct (is_digit c) eqn:Hc.
  - destruct (lower_char_facts c) as (_ & _ & _ & _ & _ & Hspace).
    rewrite (rstrip_cons _ _ (Hspace Hc)). simpl. rewrite Hc. apply IH.
  - cbn [take_digits]. rewrite Hc.
    destruct (PyStr.rstrip (String c s)) as [|c' r] eqn:Hr; [reflexivity|].
    assert (c' = c).
    { simpl in Hr. destruct (PyStr.rstrip s); [destruct (PyStr.isspace c)|];
        congruence. }
    subst c'. simpl. now rewrite Hc.
Qed.

Lemma read_number_lower (s : string) :
  read_number (PyStr.lower s) = read_number s.
Proof.
  unfold read_number. rewrite take_digits_lower.
  destruct (take_digits s 0%N 0%nat) as [[whole k] rest].
  destruct rest as [|c rest]; [reflexivity|]. simpl.
  destruct (lower_char_facts c) as (_ & _ & Hdot & _).
  destruct (Ascii.eqb_spec c ".") as [->|Hne].
  - simpl. rewrite take_digits_lower.
    now destruct (take_digits rest 0%N 0%nat) as [[fraction places] rest'].
  - destruct (Ascii.eqb_spec (PyStr.lower_char c) ".") as [Heq|Hne'];
      [discriminate|].
    destruct c as [[] [] [] [] [] [] [] []];
      try reflexivity; try (exfalso; apply Hne; reflexivity);
      try (exfalso; apply Hne'; reflexivity).
Qed.

Lemma read_number_rstrip (s : string) :
  read_number (PyStr.rstrip s) = read_number s.
Proof.
  unfold read_number. rewrite take_digits_rstrip.
  destruct (take_digits s 0%N 0%nat) as [[whole k] rest].
  destruct rest as [|c rest]; [reflexivity|].
  destruct (Ascii.eqb_spec c ".") as [->|Hne].
  - rewrite rstrip_cons by reflexivity. rewrite take_digits_rstrip.
    now destruct (take_digits rest 0%N 0%nat) as [[fraction places] rest'].
  - destruct (PyStr.rstrip (String c rest)) as [|c' r] eqn:Hr.
    + destruct c as [[] [] [] [] [] [] [] []];
        try reflexivity; exfalso; apply Hne; reflexivity.
    + assert (c' = c).
      { simpl in Hr. destruct (PyStr.rstrip rest); [destruct (PyStr.isspace c)|];
          congruence. }
      subst c'.
      destruct c as [[] [] [] [] [] [] [] []];
        try reflexivity; exfalso; apply Hne; reflexivity.
Qed.

Lemma search_number_digit (s : string) :
  search_number s = None <-> has_digit s = false.
Proof.
  induction s as [|c s IH]; simpl; [tauto|].
  destruct (is_digit c); simpl; [split; discriminate|exact IH].
Qed.

Lemma blank_no_digit (s : string) : is_blank s = true -> has_digit s = false.
Proof.
  induction s as [|c s IH]; simpl; [reflexivity|].
  intros H. apply andb_prop in H as [Hc Hs]. rewrite (IH Hs).
  destruct (is_digit c) eqn:Hd; [|reflexivity].
  destruct (lower_char_facts c) as (_ & _ & _ & _ & _ & Hspace).
  rewrite (Hspace Hd) in Hc. discriminate.
Qed.

Lemma search_number_lower (s : string) :
  search_number (PyStr.lower s) = search_number s.
Proof.
  induction s as [|c s IH]; [reflexivity|].
  change (PyStr.lower (String c s)) with (String (PyStr.lower_char c) (PyStr.lower s)).
  cbn [search_number].
  destruct (lower_char_facts c) as (-> & _).
  destruct (is_digit c); [|exact IH].
  f_equal. apply (read_number_lower (String c s)).
Qed.

Lemma search_number_lstrip (s : string) :
  search_number (PyStr.lstrip s) = search_number s.
Proof.
  induction s as [|c s IH]; simpl; [reflexivity|].
  destruct (PyStr.isspace c) eqn:Hc; [|reflexivity].
  rewrite IH. destruct (is_digit c) eqn:Hd; [|reflexivity].
  destruct (lower_char_facts c) as (_ & _ & _ & _ & _ & Hspace).
  rewrite (Hspace Hd) in Hc. discriminate.
Qed.

Lemma search_number_rstrip (s : string) :
  search_number (PyStr.rstrip s) = search_number s.
Proof.
  induction s as [|c s IH]; [reflexivity|].
  destruct (is_digit c) eqn:Hd.
  - destruct (lower_char_facts c) as (_ & _ & _ & _ & _ & Hspace).
    pose proof (rstrip_cons c s (Hspace Hd)) as E.
    rewrite E. cbn [search_number]. rewrite Hd.
    f_equal. rewrite <- E. apply read_number_rstrip.
  - cbn [search_number]. rewrite Hd, <- IH.
    simpl. destruct (PyStr.rstrip s) as [|c' r] eqn:Hr.
    + destruct (PyStr.isspace c); simpl; [reflexivity|now rewrite Hd].
    + cbn [search_number]. now rewrite Hd.
Qed.

Lemma read_number_nonneg (s : string) : (0 <= read_number s)%Q.
Proof.
  assert (Hn : forall n : N, (0 <= inject_Z (Z.of_N n))%Q).
  { intros n. change 0%Q with (inject_Z 0). rewrite <- Zle_Qle. lia. }
  unfold read_number.
  destruct (take_digits s 0%N 0%nat) as [[whole k] rest].
  destruct rest as [|c rest]; [apply Hn|].
  destruct c as [[] [] [] [] [] [] [] []]; try apply Hn.
  destruct (take_digits rest 0%N 0%nat) as [[fraction places] rest'].
  destruct places as [|places]; [apply Hn|].
  change 0%Q with (0 + 0)%Q. apply Qplus_le_compat; [apply Hn|].
  apply Qle_shift_div_l.
  - change 0%Q with (inject_Z 0). rewrite <- Zlt_Qlt.
    apply Z.pow_pos_nonneg; lia.
  - rewrite Qmult_0_l. apply Hn.
Qed.

Lemma search_number_nonneg (s : string) (q : Q) :
  search_number s = Some q -> (0 <= q)%Q.
Proof.
  induction s as [|c s IH]; simpl; [discriminate|].
  destruct (is_digit c); [|exact IH].
  intros [= <-]. apply read_number_nonneg.
Qed.

Section MemoryFacts.

Variable float_repr : Q -> string.

Lemma parse_mb_raw (val : cell) :
  parse_mb float_repr val
  = if isna val then None else search_number (astype_str float_repr val).
Proof.
  unfold parse_mb. destruct (isna val); [reflexivity|].
  unfold PyStr.strip.
  now rewrite search_number_lower, search_number_rstrip, search_number_lstrip.
Qed.

Lemma parse_mb_first_number_parts (val : cell) :
  parse_mb float_repr val = None
  \/ exists mb, parse_mb float_repr val = Some mb /\ (0 <= mb)%Q.
Proof.
  rewrite parse_mb_raw. destruct (isna val); [now left|].
  destruct (search_number _) as [mb|] eqn:Hmb; [|now left].
  right. exists mb. split; [reflexivity|]. now apply (search_number_nonneg _ _ Hmb).
Qed.

(** X13.  [parse_mb] reads the first run of ASCII digits of the text of its
    argument, with the decimals that follow it, and nothing else: the
    [strip] and [lower] steps change nothing, the result is NaN exactly for
    a missing value or a text without a digit, and it is never negative (a
    sign in front of the digits is not read). *)
Theorem parse_mb_first_number (val : cell) :
  parse_mb float_repr val
    = (if isna val then None else search_number (astype_str float_repr val))
  /\ (parse_mb float_repr val = None
      <-> isna val = true \/ has_digit (astype_str float_repr val) = false)
  /\ (forall mb, parse_mb float_repr val = Some mb -> (0 <= mb)%Q)
  /\ (forall gb, mb_to_gb (parse_mb float_repr val) = Some gb -> (0 <= gb)%Q).
Proof.
  split; [apply parse_mb_raw|]. rewrite parse_mb_raw.
  destruct (isna val).
  - split; [|split]; [split; auto|discriminate|discriminate].
  - split; [|split].
    + rewrite search_number_digit. split; [auto|]. now intros [|].
    + apply search_number_nonneg.
    + intros gb. destruct (search_number _) as [mb|] eqn:Hmb; [|discriminate].
      intros [= <-]. apply Qle_shift_div_l; [reflexivity|].
      rewrite Qmult_0_l. now apply (search_number_nonneg _ _ Hmb).
Qed.

End MemoryFacts.

Lemma string_app_assoc (a b c : string) : (a +:+ b) +:+ c = a +:+ (b +:+ c).
Proof.
  induction a as [|x a IH]; [reflexivity|].
  change (String x ((a +:+ b) +:+ c) = String x (a +:+ (b +:+ c))).
  now rewrite IH.
Qed.

Lemma string_app_nil_r (a : string) : a +:+ "" = a.
Proof.
  induction a as [|x a IH]; [reflexivity|].
  change (String x (a +:+ "") = String x a). now rewrite IH.
Qed.

Lemma pretty_N_go_app (x : N) (s : string) :
  pretty_N_go x s = pretty_N_go x "" +:+ s.
Proof.
  revert s. induction (N.lt_wf_0 x) as [x _ IH]. intros s.
  destruct (N.eq_0_gt_0_cases x) as [->|Hpos].
  - now rewrite !pretty_N_go_0.
  - rewrite !(pretty_N_go_step x _ Hpos).
    assert (Hdiv : (x `div` 10 < x)%N) by now apply N.div_lt.
    rewrite (IH _ Hdiv (String _ s)), (IH _ Hdiv (String _ "")).
    now rewrite string_app_assoc.
Qed.

(** A numeral written by [pretty], whatever follows it that is neither a
    digit nor a dot, is read back as its number. *)
Lemma search_number_pretty (n : N) (rest : string) :
  match rest with
  | EmptyString => True
  | String c _ => is_digit c = false /\ c <> "."%char
  end ->
  search_number (pretty n +:+ rest) = Some (inject_Z (Z.of_N n)).
Proof.
  intros Hrest.
  assert (Hread : exists k, take_digits (pretty n +:+ rest) 0%N 0%nat
                            = take_digits rest n k).
  { unfold pretty, pretty_N. case_decide as Hn.
    - subst n. simpl. now exists 1%nat.
    - rewrite <- pretty_N_go_app.
      destruct (take_digits_pretty_N_go n rest) as (Hgo & _).
      destruct (Hgo 0%N 0%nat) as [places ->]. simpl. eauto. }
  destruct (pretty_N_numeral n) as (_ & c & tail & Heq & Hc).
  rewrite Heq in *.
  change (String c tail +:+ rest) with (String c (tail +:+ rest)) in *.
  cbn [search_number]. rewrite Hc. f_equal.
  unfold read_number. destruct Hread as [k ->].
  destruct rest as [|c' rest]; [reflexivity|].
  destruct Hrest as [Hd Hdot]. simpl. rewrite Hd.
  destruct c' as [[] [] [] [] [] [] [] []];
    try reflexivity; exfalso; apply Hdot; reflexivity.
Qed.

Section MemoryRoundTrip.

Variable float_repr : Q -> string.

(** X14.  [parse_mb] gives an integer back as its absolute value, and a
    size written as a number of megabytes followed by " MB" as that number;
    with [mb_to_gb] a whole number of gibibytes written in megabytes comes
    back as that number of gibibytes.  The numbers are taken up to [2^53],
    which a float holds exactly. *)
Theorem parse_mb_round_trip (z : Z) (n : N) :
  Z.abs z <= 2 ^ 53 ->
  (1024 * n <= 2 ^ 53)%N ->
  parse_mb float_repr (CInt z) = Some (inject_Z (Z.abs z))
  /\ parse_mb float_repr (CStr (pretty n +:+ " MB")) = Some (inject_Z (Z.of_N n))
  /\ exists gb,
      mb_to_gb (parse_mb float_repr (CStr (pretty (1024 * n)%N +:+ " MB"))) = Some gb
      /\ (gb == inject_Z (Z.of_N n))%Q.
Proof.
  intros _ _. rewrite !parse_mb_raw. cbn [isna astype_str]. split; [|split].
  - destruct z as [|p|p].
    + reflexivity.
    + change (pretty (Z.pos p)) with (pretty (N.pos p)).
      rewrite <- (string_app_nil_r (pretty (N.pos p))).
      now rewrite (search_number_pretty (N.pos p) "" I).
    + change (pretty (Z.neg p)) with (String "-" (pretty (N.pos p))).
      cbn [search_number]. change (is_digit "-") with false. cbv iota.
      rewrite <- (string_app_nil_r (pretty (N.pos p))).
      now rewrite (search_number_pretty (N.pos p) "" I).
  - apply search_number_pretty. split; [reflexivity|discriminate].
  - rewrite search_number_pretty by (split; [reflexivity|discriminate]).
    eexists. split; [reflexivity|].
    rewrite N2Z.inj_mul, inject_Z_mult. field.
Qed.

End MemoryRoundTrip.

(** X14 on 8 GB: "8192 MB" is read as 8192 and converted to 8. *)
Lemma parse_mb_round_trip_witness :
  parse_mb Sample.float_repr (CInt (-4096)) = Some (inject_Z 4096)
  /\ parse_mb Sample.float_repr (CStr "8 MB") = Some (inject_Z 8)
  /\ exists gb,
      mb_to_gb (parse_mb Sample.float_repr (CStr "8192 MB")) = Some gb
      /\ (gb == inject_Z 8)%Q.
Proof.
  apply (parse_mb_round_trip Sample.float_repr (-4096) 8); vm_compute; discriminate.
Defined.

Section MemoryColumn.

Variable float_repr : Q -> string.

(** X15.  The memory conversion never raises, with or without the column.
    It keeps the number of rows and every other column, leaves a table
    without the column as it is, and replaces each cell of the column by
    NaN or by a float that is not negative: the size [parse_mb] read,
    divided by 1024. *)
Theorem convert_ram_total_frame (df : DataFrame) :
  let converted := snd (convert_ram_total float_repr df) in
  fst (convert_ram_total float_repr df) = Ok tt
  /\ df_len converted = df_len df
  /\ (forall name, name <> RAM_TOTAL_COL ->
                   df_cols converted !! name = df_cols df !! name)
  /\ df_cols converted !! RAM_TOTAL_COL
     = map (fun c => float_cell (mb_to_gb (parse_mb float_repr c)))
         <$> df_cols df !! RAM_TOTAL_COL
  /\ (forall col c,
        df_cols converted !! RAM_TOTAL_COL = Some col -> c ∈ col ->
        c = CNaN \/ exists gb, c = CFloat gb /\ (0 <= gb)%Q).
Proof.
  intros converted. subst converted. unfold convert_ram_total.
  destruct (in_columns df RAM_TOTAL_COL) eqn:Hin.
  - apply in_columns_spec in Hin as [col Hcol].
    rewrite (table_bind_ok _ _ _ _ _ (get_column_ok _ _ _ Hcol)).
    unfold set_column. cbn [fst snd].
    split; [reflexivity|]. split; [reflexivity|]. split; [|split].
    + intros name Hname. now apply df_assign_lookup_ne.
    + rewrite df_assign_lookup_eq, Hcol. cbn. now rewrite !map_map.
    + intros col' c. rewrite df_assign_lookup_eq. intros [= <-] Hc.
      rewrite !map_map in Hc.
      apply list_elem_of_In, in_map_iff in Hc as (raw & <- & _).
      destruct (parse_mb_first_number_parts float_repr raw) as [Hnone|(mb & -> & Hmb)].
      * left. now rewrite Hnone.
      * right. eexists. split; [reflexivity|].
        apply Qle_shift_div_l; [reflexivity|]. now rewrite Qmult_0_l.
  - cbn [fst snd]. split; [reflexivity|]. split; [reflexivity|].
    assert (Hnone : df_cols df !! RAM_TOTAL_COL = None).
    { apply eq_None_not_Some. intros Hsome.
      apply in_columns_spec in Hsome. congruence. }
    split; [reflexivity|]. split; [now rewrite Hnone|].
    intros col c Hcol. rewrite Hnone in Hcol. discriminate.
Qed.

End MemoryColumn.

(** ** The export files *)

Section FileFacts.

Variable getmtime : string -> Q.

Local Abbreviation mtime_le := (fun f g => Qle_bool (getmtime f) (getmtime g)).

Lemma Qle_bool_false (x y : Q) : Qle_bool x y = false <-> (y < x)%Q.
Proof.
  split.
  - intros H. apply Qnot_le_lt. intros Hle.
    apply Qle_bool_iff in Hle. congruence.
  - intros H. destruct (Qle_bool x y) eqn:E; [|reflexivity].
    apply Qle_bool_iff in E. exfalso. exact (Qlt_not_le _ _ H E).
Qed.

Lemma max_by_mtime_first_newest (a : string) (l : list string) :
  max_by_mtime getmtime a l
  = match first_newest getmtime l with
    | None => a
    | Some m => if Qle_bool (getmtime m) (getmtime a) then a else m
    end.
Proof.
  unfold max_by_mtime. revert a. induction l as [|g r IH]; intros a; [reflexivity|].
  cbn [foldl first_newest]. rewrite IH.
  destruct (first_newest getmtime r) as [m|].
  - destruct (Qle_bool (getmtime g) (getmtime a)) eqn:Hga;
      destruct (Qle_bool (getmtime m) (getmtime g)) eqn:Hmg;
      destruct (Qle_bool (getmtime m) (getmtime a)) eqn:Hma;
      rewrite ?Hga, ?Hmg, ?Hma; try reflexivity;
      rewrite ?Qle_bool_false in *;
      repeat match goal with
             | H : Qle_bool _ _ = true |- _ => apply Qle_bool_iff in H
             end; exfalso.
    + apply (Qlt_not_le _ _ Hma). exact (Qle_trans _ _ _ Hmg Hga).
    + apply (Qlt_not_le _ _ Hmg).
      apply Qlt_le_weak, (Qle_lt_trans _ _ _ Hma Hga).
  - destruct (Qle_bool (getmtime g) (getmtime a)); reflexivity.
Qed.

Lemma get_latest_csv_first_newest (files : list string) :
  get_latest_csv getmtime files = first_newest getmtime files.
Proof.
  destruct files as [|f r]; [reflexivity|].
  cbn [get_latest_csv first_newest]. rewrite max_by_mtime_first_newest.
  destruct (first_newest getmtime r) as [m|]; [|reflexivity].
  destruct (Qle_bool (getmtime m) (getmtime f)); reflexivity.
Qed.

Lemma first_newest_split (files : list string) (f : string) :
  first_newest getmtime files = Some f ->
  exists before after,
    files = (before ++ f :: after)%list
    /\ (forall g, g ∈ before -> (getmtime g < getmtime f)%Q)
    /\ (forall g, g ∈ after -> (getmtime g <= getmtime f)%Q).
Proof.
  revert f. induction files as [|a r IH]; intros f; [discriminate|].
  cbn [first_newest]. destruct (first_newest getmtime r) as [m|] eqn:Hr.
  - destruct (IH m eq_refl) as (before & after & -> & Hb & Ha).
    destruct (Qle_bool (getmtime m) (getmtime a)) eqn:Hma; intros [= <-].
    + apply Qle_bool_iff in Hma.
      exists [], (before ++ m :: after)%list. split; [reflexivity|]. split.
      * intros g Hg. inversion Hg.
      * intros g Hg. apply elem_of_app in Hg as [Hg|Hg].
        -- apply Qlt_le_weak, (Qlt_le_trans _ _ _ (Hb g Hg) Hma).
        -- apply elem_of_cons in Hg as [->|Hg]; [exact Hma|].
           exact (Qle_trans _ _ _ (Ha g Hg) Hma).
    + apply Qle_bool_false in Hma.
      exists (a :: before), after. split; [reflexivity|]. split; [|exact Ha].
      intros g Hg. apply elem_of_cons in Hg as [->|Hg]; [exact Hma|exact (Hb g Hg)].
  - intros [= <-]. destruct r as [|b r'].
    + exists [], []. split; [reflexivity|].
      split; intros g Hg; inversion Hg.
    + exfalso. cbn [first_newest] in Hr.
      destruct (first_newest getmtime r') as [m|]; [|discriminate].
      destruct (Qle_bool (getmtime m) (getmtime b)); discriminate.
Qed.

Lemma first_newest_none (files : list string) :
  first_newest getmtime files = None <-> files = [].
Proof.
  split; [|intros ->; reflexivity].
  destruct files as [|a r]; [reflexivity|]. cbn [first_newest].
  destruct (first_newest getmtime r) as [m|]; [|discriminate].
  destruct (Qle_bool (getmtime m) (getmtime a)); discriminate.
Qed.

(** X16.  [get_latest_csv] returns [None] exactly when no file matches the
    pattern; otherwise it returns a file of the listing that no file is
    newer than, and of several files with that newest time the one that
    comes first in the listing: every file before it is strictly older. *)
Theorem get_latest_csv_newest (files : list string) :
  (get_latest_csv getmtime files = None <-> files = [])
  /\ (forall f, get_latest_csv getmtime files = Some f ->
        exists before after,
          files = (before ++ f :: after)%list
          /\ (forall g, g ∈ before -> (getmtime g < getmtime f)%Q)
          /\ (forall g, g ∈ after -> (getmtime g <= getmtime f)%Q)).
Proof.
  rewrite get_latest_csv_first_newest. split.
  - apply first_newest_none.
  - apply first_newest_split.
Qed.

Lemma insert_by_mtime_perm (f : string) (l : list string) :
  insert_by_mtime getmtime f l ≡ₚ f :: l.
Proof.
  induction l as [|g r IH]; [reflexivity|]. cbn [insert_by_mtime].
  destruct (Qle_bool (getmtime g) (getmtime f)); [reflexivity|].
  rewrite IH. apply perm_swap.
Qed.

Lemma sort_newest_first_perm (l : list string) :
  sort_newest_first getmtime l ≡ₚ l.
Proof.
  induction l as [|f r IH]; [reflexivity|].
  unfold sort_newest_first in *. cbn [foldr].
  rewrite insert_by_mtime_perm. by rewrite IH.
Qed.

(** Newest first: every file is at least as new as all the files after it. *)
Local Abbreviation newest_first :=
  (StronglySorted (fun f g => (getmtime g <= getmtime f)%Q)).

Lemma insert_by_mtime_sorted (f : string) (l : list string) :
  newest_first l -> newest_first (insert_by_mtime getmtime f l).
Proof.
  induction 1 as [|g r Hr IH Hg]; cbn [insert_by_mtime].
  - repeat constructor.
  - destruct (Qle_bool (getmtime g) (getmtime f)) eqn:Hgf.
    + apply Qle_bool_iff in Hgf. constructor; [by constructor|].
      constructor; [exact Hgf|].
      eapply Forall_impl; [exact Hg|]. intros x Hx. cbn in *.
      exact (Qle_trans _ _ _ Hx Hgf).
    + apply Qle_bool_false in Hgf. constructor; [exact IH|].
      rewrite insert_by_mtime_perm. constructor; [|exact Hg].
      apply Qlt_le_weak, Hgf.
Qed.

Lemma sort_newest_first_sorted (l : list string) :
  newest_first (sort_newest_first getmtime l).
Proof.
  induction l as [|f r IH]; [constructor|].
  apply insert_by_mtime_sorted, IH.
Qed.

Lemma insert_by_mtime_modified_at (t : Q) (f : string) (l : list string) :
  modified_at getmtime t (insert_by_mtime getmtime f l)
  = modified_at getmtime t (f :: l).
Proof.
  unfold modified_at. induction l as [|g r IH]; [reflexivity|].
  cbn [insert_by_mtime].
  destruct (Qle_bool (getmtime g) (getmtime f)) eqn:Hgf; [reflexivity|].
  apply Qle_bool_false in Hgf.
  cbn [List.filter] in *. rewrite IH.
  destruct (Qeq_bool (getmtime f) t) eqn:Hf; [|reflexivity].
  destruct (Qeq_bool (getmtime g) t) eqn:Hg; [|reflexivity].
  exfalso. apply Qeq_bool_iff in Hf, Hg.
  rewrite Hf, Hg in Hgf. exact (Qlt_irrefl _ Hgf).
Qed.

Lemma sort_newest_first_modified_at (t : Q) (l : list string) :
  modified_at getmtime t (sort_newest_first getmtime l) = modified_at getmtime t l.
Proof.
  induction l as [|f r IH]; [reflexivity|].
  unfold sort_newest_first in *. cbn [foldr].
  rewrite insert_by_mtime_modified_at. unfold modified_at in *.
  cbn [List.filter]. rewrite IH. reflexivity.
Qed.

Lemma strongly_sorted_lookup (l : list string) (i j : nat) (f g : string) :
  newest_first l -> (i < j)%nat -> l !! i = Some f -> l !! j = Some g ->
  (getmtime g <= getmtime f)%Q.
Proof.
  intros Hs. revert i j. induction Hs as [|a r Hr IH Ha]; intros i j Hij Hi Hj.
  - discriminate.
  - destruct j as [|j]; [lia|]. cbn in Hj. destruct i as [|i].
    + cbn in Hi. injection Hi as <-.
      rewrite Forall_forall in Ha. apply Ha.
      by eapply list_elem_of_lookup_2.
    + cbn in Hi. apply (IH i j); [lia|assumption..].
Qed.

(** X17.  [get_recent_csvs] returns exactly the files of the listing whose
    datetime of modification, the timestamp rounded to the microsecond, is
    less than [minutes] minutes before [now], each as often as the listing
    has it; they come newest first by their timestamps; and files modified
    at the same time keep the order the listing gave them (the sort is
    stable). *)
Theorem get_recent_csvs_sorted (now : Q) (minutes : Z) (files : list string) :
  let recent := get_recent_csvs getmtime now minutes files in
  recent ≡ₚ List.filter (is_recent getmtime now minutes) files
  /\ (forall f, f ∈ recent
                <-> f ∈ files
                    /\ (now * 1000000 - inject_Z (fromtimestamp (getmtime f))
                        < inject_Z (60 * minutes * 1000000))%Q)
  /\ (forall i j f g, (i < j)%nat -> recent !! i = Some f -> recent !! j = Some g ->
        (getmtime g <= getmtime f)%Q)
  /\ (forall t, modified_at getmtime t recent
               = modified_at getmtime t (List.filter (is_recent getmtime now minutes) files)).
Proof.
  cbn zeta. unfold get_recent_csvs. split; [|split; [|split]].
  - apply sort_newest_first_perm.
  - intros f. rewrite sort_newest_first_perm, list_elem_of_In, filter_In.
    rewrite <- list_elem_of_In. unfold is_recent.
    rewrite negb_true_iff, Qle_bool_false. reflexivity.
  - intros i j f g. apply strongly_sorted_lookup, sort_newest_first_sorted.
  - intros t. apply sort_newest_first_modified_at.
Qed.

Lemma head_sort_newest_first (l : list string) :
  head (sort_newest_first getmtime l) = first_newest getmtime l.
Proof.
  induction l as [|f r IH]; [reflexivity|].
  unfold sort_newest_first in *. cbn [foldr first_newest]. rewrite <- IH.
  destruct (foldr (insert_by_mtime getmtime) [] r) as [|g s]; [reflexivity|].
  cbn [insert_by_mtime head].
  destruct (Qle_bool (getmtime g) (getmtime f)); reflexivity.
Qed.

Lemma first_newest_elem (l : list string) (m : string) :
  first_newest getmtime l = Some m -> m ∈ l.
Proof.
  intros H. destruct (first_newest_split _ _ H) as (b & a & -> & _).
  apply elem_of_app. right. apply list_elem_of_here.
Qed.

Lemma first_newest_filter (P : string -> bool) (l : list string) :
  (forall f g, P g = true -> (getmtime g <= getmtime f)%Q -> P f = true) ->
  List.filter P l <> [] ->
  first_newest getmtime (List.filter P l) = first_newest getmtime l.
Proof.
  intros Hup. induction l as [|f r IH]; [reflexivity|].
  cbn [List.filter]. destruct (P f) eqn:Hf.
  - intros _. cbn [first_newest].
    destruct (List.filter P r) as [|x xs] eqn:Hfr.
    + cbn [first_newest]. destruct (first_newest getmtime r) as [m|] eqn:Hm; [|reflexivity].
      destruct (Qle_bool (getmtime m) (getmtime f)) eqn:Hmf; [reflexivity|].
      exfalso. apply Qle_bool_false in Hmf.
      assert (P m = true) as HPm by (apply (Hup m f Hf), Qlt_le_weak, Hmf).
      assert (In m (List.filter P r)) as Hin.
      { apply filter_In. split; [|exact HPm].
        apply list_elem_of_In. exact (first_newest_elem _ _ Hm). }
      rewrite Hfr in Hin. destruct Hin.
    + rewrite IH by discriminate. reflexivity.
  - intros Hne. rewrite (IH Hne). cbn [first_newest].
    destruct (first_newest getmtime r) as [m|] eqn:Hm.
    + destruct (Qle_bool (getmtime m) (getmtime f)) eqn:Hmf; [|reflexivity].
      exfalso. apply Qle_bool_iff in Hmf.
      assert (In m (List.filter P r)) as Hin.
      { apply list_elem_of_In, first_newest_elem. exact (IH Hne). }
      apply filter_In in Hin as [_ HPm].
      rewrite (Hup f m HPm Hmf) in Hf. discriminate.
    + apply first_newest_none in Hm. subst r. cbn in Hne. congruence.
Qed.

Lemma round_half_even_bounds (x : Q) :
  (Qfloor x <= round_half_even x <= Qfloor x + 1)%Z.
Proof.
  unfold round_half_even. destruct (_ ?= _)%Q; [destruct (Z.even _)|..]; lia.
Qed.

(** Rounding keeps the order. *)
Lemma round_half_even_mono (x y : Q) :
  (x <= y)%Q -> (round_half_even x <= round_half_even y)%Z.
Proof.
  intros Hxy. pose proof (Qfloor_resp_le _ _ Hxy) as Hfl.
  destruct (Z.eq_dec (Qfloor x) (Qfloor y)) as [E|NE].
  - unfold round_half_even. rewrite <- E.
    assert (x - inject_Z (Qfloor x) <= y - inject_Z (Qfloor x))%Q as Hd
      by (unfold Qminus; apply Qplus_le_l, Hxy).
    destruct (Qcompare_spec (x - inject_Z (Qfloor x)) (1 # 2)) as [Cx|Cx|Cx];
      destruct (Qcompare_spec (y - inject_Z (Qfloor x)) (1 # 2)) as [Cy|Cy|Cy];
      try (destruct (Z.even (Qfloor x))); try lia; exfalso;
      apply (Qlt_irrefl (1 # 2)).
    + rewrite Cx in Hd. exact (Qle_lt_trans _ _ _ Hd Cy).
    + rewrite Cy in Hd. exact (Qlt_le_trans _ _ _ Cx Hd).
    + exact (Qlt_trans _ _ _ (Qlt_le_trans _ _ _ Cx Hd) Cy).
    + exact (Qlt_trans _ _ _ (Qlt_le_trans _ _ _ Cx Hd) Cy).
  - pose proof (round_half_even_bounds x). pose proof (round_half_even_bounds y).
    lia.
Qed.

Lemma fromtimestamp_mono (t u : Q) :
  (t <= u)%Q -> (fromtimestamp t <= fromtimestamp u)%Z.
Proof.
  intros H. apply round_half_even_mono.
  apply Qmult_le_compat_r; [exact H|discriminate].
Qed.

Lemma is_recent_newer (now : Q) (minutes : Z) (f g : string) :
  is_recent getmtime now minutes g = true -> (getmtime g <= getmtime f)%Q ->
  is_recent getmtime now minutes f = true.
Proof.
  unfold is_recent. rewrite !negb_true_iff, !Qle_bool_false. intros Hg Hle.
  eapply Qle_lt_trans; [|exact Hg].
  unfold Qminus. apply Qplus_le_r, Qopp_le_compat.
  rewrite <- Zle_Qle. apply fromtimestamp_mono, Hle.
Qed.

(** X18.  The file [refresh_and_wait] announces is the one it waited for:
    when [get_recent_csvs] finds files in a listing, the first of them is
    the file [get_latest_csv] returns for that listing, whatever window and
    clock were used. *)
Theorem recent_head_is_latest (now : Q) (minutes : Z) (files rest : list string)
    (f : string) :
  get_recent_csvs getmtime now minutes files = f :: rest ->
  get_latest_csv getmtime files = Some f.
Proof.
  intros H. rewrite get_latest_csv_first_newest.
  assert (head (get_recent_csvs getmtime now minutes files) = Some f) as Hh
    by (rewrite H; reflexivity).
  unfold get_recent_csvs in *. rewrite head_sort_newest_first in Hh.
  rewrite <- Hh. symmetry. apply first_newest_filter.
  - intros a b. apply is_recent_newer.
  - intros E. rewrite E in H. discriminate.
Qed.

End FileFacts.

(** X18 on the sample directory, two minutes after the last export: the
    old file is left out, and of the two files of the same second the one
    the listing has first is both the head of the recent files and the
    latest file. *)
Lemma recent_head_is_latest_witness :
  get_recent_csvs sample_getmtime 5120 5 sample_listing
  = ["devices_a.csv"; "devices_b.csv"]
  /\ get_latest_csv sample_getmtime sample_listing = Some "devices_a.csv".
Proof.
  split; [reflexivity|].
  apply (recent_head_is_latest sample_getmtime 5120 5 sample_listing
           ["devices_b.csv"] "devices_a.csv").
  reflexivity.
Defined.

(** The edge of the window: five minutes before [now = 1000] is 700.  A
    file written 0.2 microseconds after that has the datetime 700.000000
    and is not recent; one written 0.6 microseconds after it has the
    datetime 700.000001 and is. *)
Example recent_window_edge :
  get_recent_csvs (fun _ => 7000000002 # 10000000) 1000 5 ["devices.csv"] = []
  /\ get_recent_csvs (fun _ => 7000000006 # 10000000) 1000 5 ["devices.csv"]
     = ["devices.csv"].
Proof. split; vm_compute; reflexivity. Qed.
